(** * Verification of the two-stage rational resampler and the IIO source
      pipeline of kalibrate-hydrasdr (src/dsp_resampler.cc, src/iio_source.cc).

    Single-precision arithmetic is kept abstract: the class [FloatOps]
    provides the operations the code uses ([+], [*], [/], the int-to-float
    conversion and the float constants written in the source).  Everything
    else (indices, counters, loop structure, array updates) is modelled as
    the code has it. *)

From Stdlib Require Import ZArith Lia.
From stdpp Require Import base list.

(** ** Constants of dsp_resampler.h *)

Definition S1_DECIMATION : Z := 5.
Definition S1_TAPS : Z := 61.
Definition S2_INTERP : Z := 13.
Definition S2_DECIM : Z := 24.
Definition S2_TAPS_TOTAL : Z := 729.
Definition S2_PHASES : Z := 13.
Definition S2_TAPS_PER_PHASE : Z := 57.

(** ** Coefficient tables of dsp_resampler.cc

    Every literal of both tables is written with eight decimals; the lists
    below hold the literals in units of 1e-8 ([-0.00031204f] is [-31204]).
    The stored single-precision constant is [of_lit] of that number. *)

Definition S1_COEFFS_LIT : list Z := [
  (-31204); (-4545); 27904; 68462; 117369; 171261; 222291; 258239; 263792; 222986;
  122527; (-44472); (-274968); (-553362); (-850401); (-1124041); (-1322480); (-1389213); (-1269630); (-918414);
  (-306760); 571594; 1696486; 3020315; 4470262; 5953716; 7366408; 8602410; 9564828; 10175928;
  10385425; 10175928; 9564828; 8602410; 7366408; 5953716; 4470262; 3020315; 1696486; 571594;
  (-306760); (-918414); (-1269630); (-1389213); (-1322480); (-1124041); (-850401); (-553362); (-274968); (-44472);
  122527; 222986; 263792; 258239; 222291; 171261; 117369; 68462; 27904; (-4545);
  (-31204)
]%Z.

Definition S2_COEFFS_RAW_LIT : list Z := [
  6223; 8348; 10558; 12822; 15103; 17364; 19563; 21657; 23602; 25352;
  26862; 28088; 28987; 29518; 29645; 29335; 28560; 27297; 25530; 23250;
  20457; 17156; 13363; 9102; 4406; (-685); (-6118); (-11837); (-17773); (-23854);
  (-29997); (-36117); (-42123); (-47919); (-53408); (-58492); (-63073); (-67054); (-70345); (-72856);
  (-74507); (-75225); (-74948); (-73624); (-71213); (-67689); (-63041); (-57275); (-50410); (-42486);
  (-33556); (-23693); (-12986); (-1541); 10521; 23065; 35940; 48986; 62030; 74893;
  87389; 99328; 110520; 120776; 129911; 137746; 144115; 148862; 151848; 152951;
  152070; 149128; 144071; 136874; 127538; 116095; 102608; 87168; 69899; 50954;
  30517; 8797; (-13967); (-37515); (-61564); (-85814); (-109948); (-133640); (-156555); (-178356);
  (-198708); (-217281); (-233757); (-247834); (-259230); (-267687); (-272980); (-274914); (-273333); (-268124);
  (-259216); (-246584); (-230256); (-210307); (-186864); (-160106); (-130261); (-97608); (-62475); (-25231);
  13710; 53898; 94851; 136058; 176987; 217094; 255821; 292613; 326921; 358207;
  385958; 409687; 428946; 443327; 452477; 456097; 453952; 445874; 431768; 411615;
  385475; 353489; 315879; 272948; 225079; 172731; 116439; 56804; (-5507); (-69772);
  (-135221); (-201043); (-266396); (-330420); (-392241); (-450990); (-505810); (-555867); (-600365); (-638554);
  (-669745); (-693318); (-708733); (-715538); (-713383); (-702020); (-681315); (-651250); (-611931); (-563584);
  (-506559); (-441331); (-368495); (-288760); (-202948); (-111983); (-16881); 81255; 181253; 281883;
  381869; 479909; 574686; 664889; 749226; 826447; 895353; 954824; 1003823; 1041425;
  1066821; 1079337; 1078447; 1063781; 1035138; 992489; 935985; 865958; 782926; 687585;
  580809; 463646; 337303; 203138; 62649; (-82545); (-230721); (-380069); (-528715); (-674743);
  (-816217); (-951208); (-1077816); (-1194198); (-1298589); (-1389331); (-1464896); (-1523907); (-1565160); (-1587648);
  (-1590574); (-1573368); (-1535704); (-1477506); (-1398957); (-1300505); (-1182863); (-1047007); (-894172); (-725840);
  (-543732); (-349788); (-146152); 64853; 280748; 498923; 716673; 931224; 1139769; 1339500;
  1527647; 1701514; 1858509; 1996189; 2112285; 2204744; 2271754; 2311775; 2323569; 2306220;
  2259153; 2182153; 2075379; 1939366; 1775034; 1583683; 1366988; 1126989; 866075; 586962;
  292669; (-13512); (-328049); (-647209); (-967096); (-1283700); (-1592941); (-1890715); (-2172949); (-2435652);
  (-2674963); (-2887205); (-3068936); (-3216995); (-3328555); (-3401158); (-3432764); (-3421783); (-3367109); (-3268145);
  (-3124827); (-2937639); (-2707622); (-2436378); (-2126065); (-1779388); (-1399582); (-990387); (-556016); (-101120);
  369256; 849721; 1334598; 1817979; 2293788; 2755853; 3197977; 3614006; 3997908; 4343847;
  4646260; 4899927; 5100048; 5242308; 5322946; 5338817; 5287443; 5167070; 4976706; 4716159;
  4386067; 3987915; 3524046; 2997665; 2412829; 1774434; 1088181; 360548; (-401259); (-1189360);
  (-1995265); (-2809939); (-3623888); (-4427239); (-5209830); (-5961309); (-6671236); (-7329178); (-7924826); (-8448092);
  (-8889222); (-9238899); (-9488349); (-9629439); (-9654773); (-9557785); (-9332819); (-8975211); (-8481352); (-7848750);
  (-7076078); (-6163212); (-5111262); (-3922583); (-2600783); (-1150713); 421551; 2108744; 3902451; 5793165;
  7770356; 9822543; 11937385; 14101777; 16301956; 18523608; 20751995; 22972070; 25168610; 27326347;
  29430098; 31464897; 33416129; 35269658; 37011953; 38630207; 40112455; 41447680; 42625912; 43638319;
  44477288; 45136492; 45610949; 45897070; 45992685; 45897070; 45610949; 45136492; 44477288; 43638319;
  42625912; 41447680; 40112455; 38630207; 37011953; 35269658; 33416129; 31464897; 29430098; 27326347;
  25168610; 22972070; 20751995; 18523608; 16301956; 14101777; 11937385; 9822543; 7770356; 5793165;
  3902451; 2108744; 421551; (-1150713); (-2600783); (-3922583); (-5111262); (-6163212); (-7076078); (-7848750);
  (-8481352); (-8975211); (-9332819); (-9557785); (-9654773); (-9629439); (-9488349); (-9238899); (-8889222); (-8448092);
  (-7924826); (-7329178); (-6671236); (-5961309); (-5209830); (-4427239); (-3623888); (-2809939); (-1995265); (-1189360);
  (-401259); 360548; 1088181; 1774434; 2412829; 2997665; 3524046; 3987915; 4386067; 4716159;
  4976706; 5167070; 5287443; 5338817; 5322946; 5242308; 5100048; 4899927; 4646260; 4343847;
  3997908; 3614006; 3197977; 2755853; 2293788; 1817979; 1334598; 849721; 369256; (-101120);
  (-556016); (-990387); (-1399582); (-1779388); (-2126065); (-2436378); (-2707622); (-2937639); (-3124827); (-3268145);
  (-3367109); (-3421783); (-3432764); (-3401158); (-3328555); (-3216995); (-3068936); (-2887205); (-2674963); (-2435652);
  (-2172949); (-1890715); (-1592941); (-1283700); (-967096); (-647209); (-328049); (-13512); 292669; 586962;
  866075; 1126989; 1366988; 1583683; 1775034; 1939366; 2075379; 2182153; 2259153; 2306220;
  2323569; 2311775; 2271754; 2204744; 2112285; 1996189; 1858509; 1701514; 1527647; 1339500;
  1139769; 931224; 716673; 498923; 280748; 64853; (-146152); (-349788); (-543732); (-725840);
  (-894172); (-1047007); (-1182863); (-1300505); (-1398957); (-1477506); (-1535704); (-1573368); (-1590574); (-1587648);
  (-1565160); (-1523907); (-1464896); (-1389331); (-1298589); (-1194198); (-1077816); (-951208); (-816217); (-674743);
  (-528715); (-380069); (-230721); (-82545); 62649; 203138; 337303; 463646; 580809; 687585;
  782926; 865958; 935985; 992489; 1035138; 1063781; 1078447; 1079337; 1066821; 1041425;
  1003823; 954824; 895353; 826447; 749226; 664889; 574686; 479909; 381869; 281883;
  181253; 81255; (-16881); (-111983); (-202948); (-288760); (-368495); (-441331); (-506559); (-563584);
  (-611931); (-651250); (-681315); (-702020); (-713383); (-715538); (-708733); (-693318); (-669745); (-638554);
  (-600365); (-555867); (-505810); (-450990); (-392241); (-330420); (-266396); (-201043); (-135221); (-69772);
  (-5507); 56804; 116439; 172731; 225079; 272948; 315879; 353489; 385475; 411615;
  431768; 445874; 453952; 456097; 452477; 443327; 428946; 409687; 385958; 358207;
  326921; 292613; 255821; 217094; 176987; 136058; 94851; 53898; 13710; (-25231);
  (-62475); (-97608); (-130261); (-160106); (-186864); (-210307); (-230256); (-246584); (-259216); (-268124);
  (-273333); (-274914); (-272980); (-267687); (-259230); (-247834); (-233757); (-217281); (-198708); (-178356);
  (-156555); (-133640); (-109948); (-85814); (-61564); (-37515); (-13967); 8797; 30517; 50954;
  69899; 87168; 102608; 116095; 127538; 136874; 144071; 149128; 152070; 152951;
  151848; 148862; 144115; 137746; 129911; 120776; 110520; 99328; 87389; 74893;
  62030; 48986; 35940; 23065; 10521; (-1541); (-12986); (-23693); (-33556); (-42486);
  (-50410); (-57275); (-63041); (-67689); (-71213); (-73624); (-74948); (-75225); (-74507); (-72856);
  (-70345); (-67054); (-63073); (-58492); (-53408); (-47919); (-42123); (-36117); (-29997); (-23854);
  (-17773); (-11837); (-6118); (-685); 4406; 9102; 13363; 17156; 20457; 23250;
  25530; 27297; 28560; 29335; 29645; 29518; 28987; 28088; 26862; 25352;
  23602; 21657; 19563; 17364; 15103; 12822; 10558; 8348; 6223
]%Z.

(** ** Single-precision operations used by the code *)

Class FloatOps (F : Type) := {
  fzero : F;                (** [0.0f] *)
  fadd : F -> F -> F;       (** [+] on float *)
  fmul : F -> F -> F;       (** [*] on float *)
  fdiv : F -> F -> F;       (** [/] on float *)
  of_int : Z -> F;          (** int to float conversion *)
  of_lit : Z -> F           (** the float constant written [d * 1e-8] *)
}.

Section Resampler.
Context {F : Type} `{FloatOps F}.

(** [std::complex<float>]: (real, imag). *)
Definition cplx : Type := (F * F)%type.
Definition czero : cplx := (fzero, fzero).

Definition S1_COEFFS : list F := map of_lit S1_COEFFS_LIT.
Definition S2_COEFFS_RAW : list F := map of_lit S2_COEFFS_RAW_LIT.

(** The members of class [dsp_resampler]; arrays as lists, [int] as [Z]. *)
Record dsp_resampler := mk_resampler {
  s1_index : Z;
  s1_history : list cplx;          (* 2 * S1_TAPS *)
  s1_coeffs_rev : list F;          (* S1_TAPS *)
  s1_head : Z;
  s2_coeffs_poly : list (list F);  (* S2_PHASES x S2_TAPS_PER_PHASE *)
  s2_history : list cplx;          (* 2 * S2_TAPS_PER_PHASE *)
  s2_head : Z;
  s2_phase_state : Z
}.

Definition set_s2_phase_state (r : dsp_resampler) (p : Z) : dsp_resampler :=
  mk_resampler (s1_index r) (s1_history r) (s1_coeffs_rev r) (s1_head r)
    (s2_coeffs_poly r) (s2_history r) (s2_head r) p.

(** [dsp_resampler::reset] *)
Definition reset (r : dsp_resampler) : dsp_resampler :=
  mk_resampler 0 (repeat czero (Z.to_nat (2 * S1_TAPS))) (s1_coeffs_rev r) 0
    (s2_coeffs_poly r) (repeat czero (Z.to_nat (2 * S2_TAPS_PER_PHASE))) 0 0.

(** Constructor loop: [s1_coeffs_rev[i] = S1_COEFFS[S1_TAPS - 1 - i]]. *)
Definition init_s1_coeffs_rev (c : list F) : list F :=
  fold_left (fun c i => <[i := nth (Z.to_nat S1_TAPS - 1 - i) S1_COEFFS fzero]> c)
    (seq 0 (Z.to_nat S1_TAPS)) c.

(** The value the constructor stores for [phase] and [tap]:
    [raw_idx = phase + tap * S2_PHASES], [S2_COEFFS_RAW[raw_idx]] if
    [raw_idx < S2_TAPS_TOTAL] and [0.0f] otherwise. *)
Definition s2_tap_value (phase tap : nat) : F :=
  let raw_idx := (phase + tap * Z.to_nat S2_PHASES)%nat in
  if (raw_idx <? Z.to_nat S2_TAPS_TOTAL)%nat
  then nth raw_idx S2_COEFFS_RAW fzero else fzero.

(** One iteration of the inner constructor loop over [tap] for [phase]:
    [s2_coeffs_poly[phase][S2_TAPS_PER_PHASE - 1 - tap] = ...]. *)
Definition poly_write (phase : nat) (poly : list (list F)) (tap : nat) : list (list F) :=
  alter (fun row => <[(Z.to_nat S2_TAPS_PER_PHASE - 1 - tap)%nat := s2_tap_value phase tap]> row)
    phase poly.

Definition init_s2_coeffs_poly (poly : list (list F)) : list (list F) :=
  fold_left (fun poly phase =>
      fold_left (poly_write phase) (seq 0 (Z.to_nat S2_TAPS_PER_PHASE)) poly)
    (seq 0 (Z.to_nat S2_PHASES)) poly.

(** [dsp_resampler::dsp_resampler()]: [g] is the object's storage before the
    constructor runs (its contents are indeterminate). *)
Definition dsp_resampler_ctor (g : dsp_resampler) : dsp_resampler :=
  let r := reset g in
  mk_resampler (s1_index r) (s1_history r) (init_s1_coeffs_rev (s1_coeffs_rev r))
    (s1_head r) (init_s2_coeffs_poly (s2_coeffs_poly r)) (s2_history r)
    (s2_head r) (s2_phase_state r).

(** The vectorisable dot products of both stages: [h_ptr = &h[head]],
    [acc_r += h_ptr[k].real() * c[k]; acc_i += h_ptr[k].imag() * c[k]]
    for [k] from [0] to [n - 1]. *)
Definition dot (h : list cplx) (head : Z) (c : list F) (n : nat) : cplx :=
  fold_left (fun acc k =>
      let x := nth (Z.to_nat head + k) h czero in
      let ck := nth k c fzero in
      (fadd acc.1 (fmul x.1 ck), fadd acc.2 (fmul x.2 ck)))
    (seq 0 n) (fzero, fzero).

(** The caller's [out_buffer] as the log of its writes
    [out_buffer[out_produced++] = y], with the counter [out_produced]. *)
Record outbuf := mk_outbuf { out_produced : nat; out_log : list (nat * cplx) }.

Definition emit (ob : outbuf) (y : cplx) : outbuf :=
  mk_outbuf (S (out_produced ob)) (out_log ob ++ [(out_produced ob, y)]).

Definition outbuf0 : outbuf := mk_outbuf 0 [].

(** Double storage: [h[head] = x; h[head + taps] = x]. *)
Definition hist_store (h : list cplx) (head taps : Z) (x : cplx) : list cplx :=
  <[Z.to_nat (head + taps) := x]> (<[Z.to_nat head := x]> h).

(** The first part of [push_stage2]: store the sample twice and advance
    [s2_head] modulo [S2_TAPS_PER_PHASE]. *)
Definition s2_advance (r : dsp_resampler) (x : cplx) : dsp_resampler :=
  let h := hist_store (s2_history r) (s2_head r) S2_TAPS_PER_PHASE x in
  let hd := if (S2_TAPS_PER_PHASE <=? s2_head r + 1)%Z then 0%Z else (s2_head r + 1)%Z in
  mk_resampler (s1_index r) (s1_history r) (s1_coeffs_rev r) (s1_head r)
    (s2_coeffs_poly r) h hd (s2_phase_state r).

(** The output computed by one iteration of the emission loop. *)
Definition s2_output (r : dsp_resampler) : cplx :=
  dot (s2_history r) (s2_head r)
    (nth (Z.to_nat (s2_phase_state r)) (s2_coeffs_poly r) []) (Z.to_nat S2_TAPS_PER_PHASE).

(** The [while (s2_phase_state < S2_INTERP)] loop of [push_stage2].  The
    boolean is [true] when the loop exits through its condition and [false]
    on the [return] taken when the output buffer is full.  [fuel] bounds the
    iterations; it is [S2_INTERP - s2_phase_state] at entry, more than the
    loop can use since every iteration adds [S2_DECIM]. *)
Fixpoint s2_loop (fuel : nat) (r : dsp_resampler) (ob : outbuf) (cap : nat)
  : dsp_resampler * outbuf * bool :=
  if (s2_phase_state r <? S2_INTERP)%Z then
    match fuel with
    | O => (r, ob, true)
    | S fuel' =>
        if (cap <=? out_produced ob)%nat then (r, ob, false)
        else
          s2_loop fuel' (set_s2_phase_state r (s2_phase_state r + S2_DECIM))
            (emit ob (s2_output r)) cap
    end
  else (r, ob, true).

(** [dsp_resampler::push_stage2] *)
Definition push_stage2 (r : dsp_resampler) (ob : outbuf) (x : cplx) (cap : nat)
  : dsp_resampler * outbuf :=
  let r1 := s2_advance r x in
  match s2_loop (Z.to_nat (S2_INTERP - s2_phase_state r1)) r1 ob cap with
  | (r2, ob2, true) => (set_s2_phase_state r2 (s2_phase_state r2 - S2_INTERP), ob2)
  | (r2, ob2, false) => (r2, ob2)
  end.

(** The Stage-1 part of [push_stage1] before the decimation test: store the
    sample twice, advance [s1_head] modulo [S1_TAPS], increment [s1_index]. *)
Definition s1_advance (r : dsp_resampler) (x : cplx) : dsp_resampler :=
  let h := hist_store (s1_history r) (s1_head r) S1_TAPS x in
  let hd := if (S1_TAPS <=? s1_head r + 1)%Z then 0%Z else (s1_head r + 1)%Z in
  mk_resampler (s1_index r + 1) h (s1_coeffs_rev r) hd
    (s2_coeffs_poly r) (s2_history r) (s2_head r) (s2_phase_state r).

(** [dsp_resampler::push_stage1] *)
Definition push_stage1 (r : dsp_resampler) (ob : outbuf) (x : cplx) (cap : nat)
  : dsp_resampler * outbuf :=
  let r1 := s1_advance r x in
  if (S1_DECIMATION <=? s1_index r1)%Z then
    let r2 := mk_resampler 0 (s1_history r1) (s1_coeffs_rev r1) (s1_head r1)
                (s2_coeffs_poly r1) (s2_history r1) (s2_head r1) (s2_phase_state r1) in
    let y := dot (s1_history r2) (s1_head r2) (s1_coeffs_rev r2) (Z.to_nat S1_TAPS) in
    push_stage2 r2 ob y cap
  else (r1, ob).

(** The [for] loop of [process], with its [break] when the buffer is full. *)
Fixpoint process_loop (r : dsp_resampler) (ob : outbuf) (inp : list cplx) (cap : nat)
  : dsp_resampler * outbuf :=
  match inp with
  | [] => (r, ob)
  | x :: inp' =>
      let '(r', ob') := push_stage1 r ob x cap in
      if (cap <=? out_produced ob')%nat then (r', ob')
      else process_loop r' ob' inp' cap
  end.

(** [dsp_resampler::process]: the new state, the writes to [out_buffer] and
    the returned [out_produced]. *)
Definition process (r : dsp_resampler) (inp : list cplx) (cap : nat)
  : dsp_resampler * outbuf * nat :=
  let '(r', ob) := process_loop r outbuf0 inp cap in (r', ob, out_produced ob).

End Resampler.

Arguments cplx F : clear implicits.
Arguments dsp_resampler F : clear implicits.
Arguments outbuf F : clear implicits.

(** ** The IIO source: worker loop and consumer call (iio_source.cc) *)

Section Source.
Context {F : Type} `{FloatOps F}.

(** Modelled from the spec: [circular_buffer::write] (circular_buffer.h
    declares the class, its implementation is not among the sources).
    [iio_source::open] builds the buffer in non-overwrite mode, where
    [write] appends as many of the [n] items as there is free space for,
    stopping at free space, and returns that number. *)
Record circular_buffer := mk_circular_buffer {
  cb_items : list (cplx F);   (* the items between the read and write cursors *)
  cb_buf_len : nat        (* capacity in items *)
}.

Definition cb_write (c : circular_buffer) (s : list (cplx F)) (n : nat)
  : circular_buffer * nat :=
  let k := Nat.min n (cb_buf_len c - length (cb_items c)) in
  (mk_circular_buffer (cb_items c ++ take k s) (cb_buf_len c), k).

Definition cb_data_available (c : circular_buffer) : nat := length (cb_items c).

Definition BATCH_SIZE : Z := 32768.

(** [unsigned int] arithmetic wraps modulo [2^32]. *)
Definition UINT_MOD : Z := 2 ^ 32.
Definition to_uint (z : Z) : Z := z mod UINT_MOD.

(** The members of [iio_source] the worker and [fill] use.  [m_dev] is
    whether the RX device handle is non-null and [rxbuf_ok] whether
    [iio_device_create_buffer] succeeds when [start] calls it. *)
Record iio_source := mk_iio_source {
  m_resampler : dsp_resampler F;
  m_overflow_count : Z;            (* std::atomic<unsigned int> *)
  cb : option circular_buffer;     (* None: null pointer *)
  streaming : bool;
  m_dev : bool;
  rxbuf_ok : bool
}.

Definition set_overflow (s : iio_source) (n : Z) : iio_source :=
  mk_iio_source (m_resampler s) n (cb s) (streaming s) (m_dev s) (rxbuf_ok s).

(** [const float scale = 1.0f / 2048.0f] *)
Definition scale : F := fdiv (of_int 1) (of_int 2048).

(** The conversion loop of [worker_thread]:
    [for (p = start; p < end && count < BATCH_SIZE; p += step)
       m_batch_buffer[count++] = complex(i * scale, q * scale)];
    the driver chunk is the list of its interleaved (i, q) pairs. *)
Fixpoint convert_batch (chunk : list (Z * Z)) (count : nat) : list (cplx F) :=
  match chunk with
  | [] => []
  | (i, q) :: rest =>
      if (count <? Z.to_nat BATCH_SIZE)%nat
      then (fmul (of_int i) scale, fmul (of_int q) scale) :: convert_batch rest (S count)
      else []
  end.

(** [m_resampler->process(m_batch_buffer, count, out_buf, BATCH_SIZE)] *)
Definition worker_process (s : iio_source) (chunk : list (Z * Z))
  : dsp_resampler F * outbuf F * nat :=
  process (m_resampler s) (convert_batch chunk 0) (Z.to_nat BATCH_SIZE).

(** One iteration of the [while (streaming)] loop of [worker_thread] after
    a successful refill; [lock_ok] is the outcome of [lock.try_lock()]. *)
Definition worker_iteration (s : iio_source) (chunk : list (Z * Z)) (lock_ok : bool)
  : iio_source :=
  let '(rs, ob, produced) := worker_process s chunk in
  let s1 := mk_iio_source rs (m_overflow_count s) (cb s) (streaming s) (m_dev s) (rxbuf_ok s) in
  let out_buf := map snd (out_log ob) in
  if (0 <? produced)%nat then
    if lock_ok then
      match cb s with
      | Some c =>
          let '(c', written) := cb_write c out_buf produced in
          let ov := if (written <? produced)%nat
                    then to_uint (m_overflow_count s + Z.of_nat (produced - written))
                    else m_overflow_count s in
          mk_iio_source rs ov (Some c') (streaming s) (m_dev s) (rxbuf_ok s)
      | None => s1
      end
    else set_overflow s1 (to_uint (m_overflow_count s + Z.of_nat produced))
  else s1.

(** [iio_source::start] (the worker thread it spawns runs separately). *)
Definition start (s : iio_source) : iio_source :=
  if m_dev s then
    let s1 := mk_iio_source (reset (m_resampler s)) 0 (cb s) (streaming s) (m_dev s) (rxbuf_ok s) in
    if rxbuf_ok s
    then mk_iio_source (m_resampler s1) 0 (cb s1) true (m_dev s1) (rxbuf_ok s1)
    else s1
  else s.

Definition data_available (s : iio_source) : nat :=
  match cb s with Some c => cb_data_available c | None => 0%nat end.

(** The end of [fill] after the wait loop's [break]:
    [if (!streaming) return -1; *overruns = m_overflow_count.exchange(0);
    return 0].  Results: the return value, the value stored in [*overruns]
    (the caller passes a non-null pointer) and the source afterwards. *)
Definition fill_finish (s : iio_source) : Z * option Z * iio_source :=
  if streaming s then (0%Z, Some (m_overflow_count s), set_overflow s 0)
  else ((-1)%Z, None, s).

(** The wait loop of [fill].  Other threads run while [fill] waits: each
    check of the loop reads the exit flag [g_kal_exit_req] and the shared
    state, given by the current observation [(ex, s)]; [ws] lists the
    observations after each [wait_for].  The read of [streaming] right
    after the [break] is taken from the observation of the check that
    broke the loop.  [None]: still waiting when [ws]
    runs out. *)
Fixpoint fill_wait (num : nat) (ex : bool) (s : iio_source)
    (ws : list (bool * iio_source)) : option (Z * option Z * iio_source) :=
  if ex then Some ((-1)%Z, None, s)
  else if (num <=? data_available s)%nat || negb (streaming s) then Some (fill_finish s)
  else match ws with
       | [] => None
       | (ex', s') :: ws' => fill_wait num ex' s' ws'
       end.

(** [iio_source::fill(num_samples, &overruns)]; [ex] is the exit flag at
    the loop's first check. *)
Definition fill (s : iio_source) (num : nat) (ex : bool) (ws : list (bool * iio_source))
  : option (Z * option Z * iio_source) :=
  match cb s with
  | None => Some ((-1)%Z, None, s)
  | Some _ => fill_wait num ex (if streaming s then s else start s) ws
  end.

(** [iio_source::worker_thread]: each element of [obs] is one pass of its
    [while (streaming.load())] loop, as the worker observes it: the value
    of [streaming] (which [stop] clears from another thread), the chunk
    [iio_buffer_refill] delivers ([None] when [nbytes < 0], which ends the
    loop with [break]) and the outcome of [lock.try_lock()]. *)
Fixpoint worker_thread (s : iio_source) (obs : list (bool * option (list (Z * Z)) * bool))
  : iio_source :=
  match obs with
  | [] => s
  | (str, refill, lock_ok) :: obs' =>
      if str then
        match refill with
        | None => s
        | Some chunk => worker_thread (worker_iteration s chunk lock_ok) obs'
        end
      else s
  end.

End Source.

Arguments circular_buffer F : clear implicits.
Arguments iio_source F : clear implicits.

(** ** [draw_ascii_fft] (util.cc): its index arithmetic

    [int] operands, all non-negative here; C's [/] and [%] are [Z.quot] and
    [Z.rem]. *)

(** Step 3, the FFT shift: [int idx = (i + len/2) % len]. *)
Definition fft_shift_index (len i : Z) : Z := Z.rem (i + Z.quot len 2) len.

(** Step 4: [int plot_width = width - 20; if (plot_width < 10) plot_width = 10;] *)
Definition plot_width (width : Z) : Z :=
  let pw := (width - 20)%Z in if (pw <? 10)%Z then 10%Z else pw.

(** [int start_idx = w * len / plot_width; int end_idx = (w + 1) * len / plot_width;] *)
Definition bin_start (len pw w : Z) : Z := Z.quot (w * len) pw.
Definition bin_end (len pw w : Z) : Z := Z.quot ((w + 1) * len) pw.

(** The indices [j] the max-hold loop [for (j = start_idx; j < end_idx; j++)]
    visits for column [w]. *)
Definition bin_range (len pw w : Z) : list Z :=
  map Z.of_nat (seq (Z.to_nat (bin_start len pw w))
                  (Z.to_nat (bin_end len pw w - bin_start len pw w))).

(** The columns [w = 0 .. plot_width - 1] of the display. *)
Definition columns (pw : Z) : list Z := map Z.of_nat (seq 0 (Z.to_nat pw)).

(** The integers [a <= i < b], in increasing order. *)
Definition zrange (a b : Z) : list Z := map Z.of_nat (seq (Z.to_nat a) (Z.to_nat (b - a))).

(** An exact integer instance of [FloatOps], for running the model on
    concrete inputs. *)
#[export] Instance int_float_ops : FloatOps Z := {|
  fzero := 0%Z; fadd := Z.add; fmul := Z.mul; fdiv := Z.div;
  of_int := fun z => z; of_lit := fun z => z
|}.

(** Storage of a freshly allocated resampler, arrays of the declared sizes. *)
Definition raw_storage : dsp_resampler Z :=
  mk_resampler 0 (repeat czero 122) (repeat 0%Z 61) 0
    (repeat (repeat 0%Z 57) 13) (repeat czero 114) 0 0.

(** ** Invariants of the resampler state *)

Section Invariants.
Context {F : Type} `{FloatOps F}.

(** The double-storage property of a history of [T] samples stored twice. *)
Definition double_stored (h : list (cplx F)) (T : Z) : Prop :=
  length h = Z.to_nat (2 * T) ∧
  ∀ k : nat, (k < Z.to_nat T)%nat → h !! k = h !! (k + Z.to_nat T)%nat.

Definition history_inv (r : dsp_resampler F) : Prop :=
  double_stored (s1_history r) S1_TAPS ∧ (0 <= s1_head r < S1_TAPS)%Z ∧
  double_stored (s2_history r) S2_TAPS_PER_PHASE ∧
  (0 <= s2_head r < S2_TAPS_PER_PHASE)%Z.

(** The writes of [out_buffer] are [out_buffer[0]], [out_buffer[1]], ...
    in this order, and the counter stays within [cap]. *)
Definition outbuf_inv (cap : nat) (ob : outbuf F) : Prop :=
  (out_produced ob <= cap)%nat ∧ map fst (out_log ob) = seq 0 (out_produced ob).

(** The range of [s2_phase_state] between two input samples. *)
Definition phase_ok (r : dsp_resampler F) : Prop := (0 <= s2_phase_state r < 24)%Z.

(** [0.0f + 0.0f * c == 0.0f]: true of every finite single-precision [c]. *)
Definition zero_absorbs (c : F) : Prop := fadd fzero (fmul fzero c) = fzero.

(** The taps of both stages absorb a zero sample. *)
Definition coeffs_absorb (r : dsp_resampler F) : Prop :=
  Forall zero_absorbs (s1_coeffs_rev r) ∧
  Forall (Forall zero_absorbs) (s2_coeffs_poly r) ∧ zero_absorbs fzero.

(** State of the resampler after [k] zero samples fed from [reset]: zero
    histories, [s1_index = k mod 5], [o = ceil(13 m / 24)] outputs for the
    [m = k / 5] Stage-2 samples, phase [24 o - 13 m], all outputs zero. *)
Definition zero_run_inv (k : Z) (r : dsp_resampler F) (ob : outbuf F) : Prop :=
  Forall (eq czero) (s1_history r) ∧ Forall (eq czero) (s2_history r) ∧
  coeffs_absorb r ∧ s1_index r = (k mod 5)%Z ∧
  Z.of_nat (out_produced ob) = ((13 * (k / 5) + 23) / 24)%Z ∧
  s2_phase_state r = (24 * ((13 * (k / 5) + 23) / 24) - 13 * (k / 5))%Z ∧
  Forall (fun iv => iv.2 = czero) (out_log ob).

(** One part of the complex dot product: the real ([fst]) or imaginary
    ([snd]) parts of the window convolved with the real taps [c]. *)
Definition dot_part (part : cplx F → F) (h : list (cplx F)) (head : Z) (c : list F) (n : nat) : F :=
  fold_left (fun acc k => fadd acc (fmul (part (nth (Z.to_nat head + k) h czero)) (nth k c fzero)))
    (seq 0 n) fzero.

End Invariants.

Section Control.
Context {F G : Type} `{FloatOps F} `{FloatOps G}.

(** Two resamplers, possibly over different float types, with the same
    control state: decimation counter, heads and phase accumulator. *)
Definition same_ctrl (r : dsp_resampler F) (r' : dsp_resampler G) : Prop :=
  s1_index r = s1_index r' ∧ s1_head r = s1_head r' ∧
  s2_head r = s2_head r' ∧ s2_phase_state r = s2_phase_state r'.

End Control.

Section Chunks.
Context {F : Type} `{FloatOps F}.

(** The writes of an output buffer [ob] followed by those of [ob'] made
    [out_produced ob] places further on. *)
Definition join (ob ob' : outbuf F) : outbuf F :=
  mk_outbuf (out_produced ob + out_produced ob')
    (out_log ob ++ map (fun iy => ((out_produced ob + iy.1)%nat, iy.2)) (out_log ob')).

(** The range of [s1_index] between two input samples. *)
Definition index_ok (r : dsp_resampler F) : Prop := (0 <= s1_index r < S1_DECIMATION)%Z.

End Chunks.

(** * Proofs *)

Section ResamplerProofs.
Context {F : Type} `{FloatOps F}.
Implicit Types (r : dsp_resampler F) (ob : outbuf F) (x : cplx F).

Lemma set_s2_phase_state_twice r p q :
  set_s2_phase_state (set_s2_phase_state r p) q = set_s2_phase_state r q.
Proof. by destruct r. Qed.

Lemma set_s2_phase_state_id r : set_s2_phase_state r (s2_phase_state r) = r.
Proof. by destruct r. Qed.

Lemma s2_loop_state fuel r ob cap :
  ∃ p, (s2_loop fuel r ob cap).1.1 = set_s2_phase_state r p.
Proof.
  revert r ob; induction fuel as [|fuel IH]; intros r ob; simpl.
  - destruct (_ <? _)%Z; exists (s2_phase_state r); by rewrite set_s2_phase_state_id.
  - destruct (_ <? _)%Z; [destruct (_ <=? _)%nat|].
    + exists (s2_phase_state r); by rewrite set_s2_phase_state_id.
    + destruct (IH (set_s2_phase_state r (s2_phase_state r + S2_DECIM))
                   (emit ob (s2_output r))) as [p Hp].
      exists p. rewrite Hp. apply set_s2_phase_state_twice.
    + exists (s2_phase_state r); by rewrite set_s2_phase_state_id.
Qed.

Lemma push_stage2_state r ob x cap :
  ∃ p, (push_stage2 r ob x cap).1 = set_s2_phase_state (s2_advance r x) p.
Proof.
  unfold push_stage2.
  destruct (s2_loop_state (Z.to_nat (S2_INTERP - s2_phase_state (s2_advance r x)))
              (s2_advance r x) ob cap) as [p Hp].
  destruct (s2_loop _ _ _ _) as [[r2 ob2] []]; simpl in *; subst r2.
  - eexists. apply set_s2_phase_state_twice.
  - eauto.
Qed.

Lemma s2_loop_exit fuel r ob cap :
  (S2_INTERP <= s2_phase_state r)%Z → s2_loop fuel r ob cap = (r, ob, true).
Proof.
  intros Hge. destruct fuel; simpl;
    by rewrite (proj2 (Z.ltb_ge _ _) Hge).
Qed.

Lemma s2_loop_full fuel r ob cap :
  (s2_phase_state r < S2_INTERP)%Z → (cap <= out_produced ob)%nat →
  s2_loop (S fuel) r ob cap = (r, ob, false).
Proof.
  intros Hlt Hcap. simpl.
  by rewrite (proj2 (Z.ltb_lt _ _) Hlt), (proj2 (Nat.leb_le _ _) Hcap).
Qed.

Lemma s2_loop_emit fuel r ob cap :
  (-11 <= s2_phase_state r < S2_INTERP)%Z → (out_produced ob < cap)%nat →
  s2_loop (S fuel) r ob cap =
    (set_s2_phase_state r (s2_phase_state r + S2_DECIM), emit ob (s2_output r), true).
Proof.
  intros Hlt Hcap. simpl.
  rewrite (proj2 (Z.ltb_lt _ _) (proj2 Hlt)), (proj2 (Nat.leb_gt _ _) Hcap).
  apply s2_loop_exit. simpl. unfold S2_INTERP, S2_DECIM in *. lia.
Qed.

(** One Stage-2 step, for a phase in [[0, 24)]: it emits one output when the
    phase is below [S2_INTERP] and the buffer has room. *)
Lemma push_stage2_spec r ob x cap :
  (0 <= s2_phase_state r < 24)%Z →
  push_stage2 r ob x cap =
    if (s2_phase_state r <? S2_INTERP)%Z then
      if (cap <=? out_produced ob)%nat then (s2_advance r x, ob)
      else (set_s2_phase_state (s2_advance r x) (s2_phase_state r + 11),
            emit ob (s2_output (s2_advance r x)))
    else (set_s2_phase_state (s2_advance r x) (s2_phase_state r - 13), ob).
Proof.
  intros Hp. unfold push_stage2.
  change (s2_phase_state (s2_advance r x)) with (s2_phase_state r).
  destruct (Z.ltb_spec (s2_phase_state r) S2_INTERP) as [Hlt|Hge].
  - replace (Z.to_nat (S2_INTERP - s2_phase_state r))
      with (S (Z.to_nat (S2_INTERP - 1 - s2_phase_state r)))
      by (unfold S2_INTERP in *; lia).
    destruct (Nat.leb_spec cap (out_produced ob)) as [Hc|Hc].
    + by rewrite s2_loop_full.
    + rewrite s2_loop_emit by (simpl; unfold S2_INTERP in *; lia).
      rewrite set_s2_phase_state_twice. simpl.
      do 2 f_equal. unfold S2_INTERP, S2_DECIM. lia.
  - rewrite s2_loop_exit by exact Hge. reflexivity.
Qed.

(** Stage 1 without a Stage-2 call, and with one. *)
Lemma push_stage1_cases r ob x cap :
  push_stage1 r ob x cap =
    if (S1_DECIMATION <=? s1_index r + 1)%Z then
      push_stage2
        (mk_resampler 0 (s1_history (s1_advance r x)) (s1_coeffs_rev r)
           (s1_head (s1_advance r x)) (s2_coeffs_poly r) (s2_history r)
           (s2_head r) (s2_phase_state r)) ob
        (dot (s1_history (s1_advance r x)) (s1_head (s1_advance r x))
           (s1_coeffs_rev r) (Z.to_nat S1_TAPS)) cap
    else (s1_advance r x, ob).
Proof. reflexivity. Qed.

(** *** Double storage *)

Lemma lookup_repeat_lt {A} (a : A) n i : (i < n)%nat → repeat a n !! i = Some a.
Proof.
  revert i; induction n as [|n IH]; intros [|i] Hi; simpl; try lia; auto.
  apply IH. lia.
Qed.

Lemma double_stored_repeat (T : Z) (a : cplx F) :
  (0 <= T)%Z → double_stored (repeat a (Z.to_nat (2 * T))) T.
Proof.
  intros HT. split; [apply repeat_length|].
  intros k Hk. rewrite !lookup_repeat_lt; auto; lia.
Qed.

Lemma double_stored_store (h : list (cplx F)) hd T x :
  double_stored h T → (0 <= hd < T)%Z → double_stored (hist_store h hd T x) T.
Proof.
  intros [Hlen Hd] Hhd. unfold hist_store. split.
  - by rewrite !length_insert.
  - intros k Hk. rewrite !list_lookup_insert, !length_insert.
    repeat case_decide; try lia; try reflexivity.
    apply Hd; lia.
Qed.

Lemma history_inv_s1_advance r x : history_inv r → history_inv (s1_advance r x).
Proof.
  intros (H1 & Hh1 & H2 & Hh2). unfold s1_advance.
  split; [|split; [|split]]; simpl; auto.
  - apply double_stored_store; auto.
  - destruct (S1_TAPS <=? s1_head r + 1)%Z eqn:E;
      [unfold S1_TAPS; lia | apply Z.leb_gt in E; lia].
Qed.

Lemma history_inv_s2_advance r x : history_inv r → history_inv (s2_advance r x).
Proof.
  intros (H1 & Hh1 & H2 & Hh2). unfold s2_advance.
  split; [|split; [|split]]; simpl; auto.
  - apply double_stored_store; auto.
  - destruct (S2_TAPS_PER_PHASE <=? s2_head r + 1)%Z eqn:E;
      [unfold S2_TAPS_PER_PHASE; lia | apply Z.leb_gt in E; lia].
Qed.

Lemma history_inv_set_phase r p : history_inv r → history_inv (set_s2_phase_state r p).
Proof. by destruct r. Qed.

Lemma history_inv_push_stage2 r ob x cap :
  history_inv r → history_inv (push_stage2 r ob x cap).1.
Proof.
  intros Hr. destruct (push_stage2_state r ob x cap) as [p ->].
  by apply history_inv_set_phase, history_inv_s2_advance.
Qed.

Lemma history_inv_push_stage1 r ob x cap :
  history_inv r → history_inv (push_stage1 r ob x cap).1.
Proof.
  intros Hr. pose proof (history_inv_s1_advance r x Hr) as Ha.
  rewrite push_stage1_cases. destruct (_ <=? _)%Z; [|exact Ha].
  apply history_inv_push_stage2.
  destruct Ha as (A1 & A2 & A3 & A4).
  split; [|split; [|split]]; simpl; assumption.
Qed.

Lemma history_inv_process_loop r ob inp cap :
  history_inv r → history_inv (process_loop r ob inp cap).1.
Proof.
  revert r ob; induction inp as [|y inp IH]; intros r ob Hr; simpl; [done|].
  pose proof (history_inv_push_stage1 r ob y cap Hr) as Hs.
  destruct (push_stage1 r ob y cap) as [r' ob'].
  destruct (cap <=? out_produced ob')%nat; [done|]. by apply IH.
Qed.

Lemma history_inv_reset g : history_inv (reset g).
Proof.
  unfold reset; split; [|split; [|split]]; cbn [s1_history s1_head s2_history s2_head];
    try (apply double_stored_repeat); unfold S1_TAPS, S2_TAPS_PER_PHASE; lia.
Qed.

End ResamplerProofs.

Section OutputProofs.
Context {F : Type} `{FloatOps F}.
Implicit Types (r : dsp_resampler F) (ob : outbuf F) (x : cplx F).

Lemma outbuf_inv_emit cap ob y :
  outbuf_inv cap ob → (out_produced ob < cap)%nat → outbuf_inv cap (emit ob y).
Proof.
  intros [Hle Hmap] Hlt. unfold emit. split; cbn [out_produced out_log]; [lia|].
  by rewrite map_app, Hmap, seq_S.
Qed.

Lemma outbuf_inv_s2_loop fuel r ob cap :
  outbuf_inv cap ob → outbuf_inv cap (s2_loop fuel r ob cap).1.2.
Proof.
  revert r ob; induction fuel as [|fuel IH]; intros r ob Hob; simpl.
  - by destruct (_ <? _)%Z.
  - destruct (_ <? _)%Z; [|done].
    destruct (Nat.leb_spec cap (out_produced ob)); [done|].
    apply IH. by apply outbuf_inv_emit.
Qed.

Lemma outbuf_inv_push_stage2 r ob x cap :
  outbuf_inv cap ob → outbuf_inv cap (push_stage2 r ob x cap).2.
Proof.
  intros Hob. unfold push_stage2.
  pose proof (outbuf_inv_s2_loop (Z.to_nat (S2_INTERP - s2_phase_state (s2_advance r x)))
                (s2_advance r x) ob cap Hob) as Hl.
  destruct (s2_loop _ _ _ _) as [[r2 ob2] []]; exact Hl.
Qed.

Lemma outbuf_inv_push_stage1 r ob x cap :
  outbuf_inv cap ob → outbuf_inv cap (push_stage1 r ob x cap).2.
Proof.
  intros Hob. rewrite push_stage1_cases.
  destruct (_ <=? _)%Z; [by apply outbuf_inv_push_stage2|exact Hob].
Qed.

Lemma outbuf_inv_process_loop r ob inp cap :
  outbuf_inv cap ob → outbuf_inv cap (process_loop r ob inp cap).2.
Proof.
  revert r ob; induction inp as [|y inp IH]; intros r ob Hob; simpl; [done|].
  pose proof (outbuf_inv_push_stage1 r ob y cap Hob) as Hs.
  destruct (push_stage1 r ob y cap) as [r' ob'].
  destruct (cap <=? out_produced ob')%nat; [done|]. by apply IH.
Qed.

Lemma process_unfold r inp cap :
  process r inp cap =
    ((process_loop r outbuf0 inp cap).1, (process_loop r outbuf0 inp cap).2,
     out_produced (process_loop r outbuf0 inp cap).2).
Proof. unfold process. by destruct (process_loop r outbuf0 inp cap). Qed.

Lemma process_loop_app r ob inp rest cap :
  inp ≠ [] → (cap <= out_produced (process_loop r ob inp cap).2)%nat →
  process_loop r ob (inp ++ rest) cap = process_loop r ob inp cap.
Proof.
  revert r ob; induction inp as [|y inp IH]; intros r ob Hne Hcap; [done|].
  simpl in *. destruct (push_stage1 r ob y cap) as [r' ob'].
  destruct (Nat.leb_spec cap (out_produced ob')) as [Hc|Hc]; [done|].
  destruct inp as [|z inp]; simpl in Hcap; [lia|].
  by apply IH.
Qed.

(** *** The phase accumulator *)

Lemma phase_ok_push_stage2 r ob x cap :
  phase_ok r → phase_ok (push_stage2 r ob x cap).1.
Proof.
  unfold phase_ok. intros Hp. rewrite push_stage2_spec by exact Hp.
  destruct (Z.ltb_spec (s2_phase_state r) S2_INTERP);
    [destruct (_ <=? _)%nat|]; simpl; unfold S2_INTERP in *; lia.
Qed.

Lemma phase_ok_push_stage1 r ob x cap :
  phase_ok r → phase_ok (push_stage1 r ob x cap).1.
Proof.
  intros Hp. rewrite push_stage1_cases.
  destruct (_ <=? _)%Z; [|exact Hp].
  by apply phase_ok_push_stage2.
Qed.

Lemma phase_ok_process_loop r ob inp cap :
  phase_ok r → phase_ok (process_loop r ob inp cap).1.
Proof.
  revert r ob; induction inp as [|y inp IH]; intros r ob Hr; simpl; [done|].
  pose proof (phase_ok_push_stage1 r ob y cap Hr) as Hs.
  destruct (push_stage1 r ob y cap) as [r' ob'].
  destruct (cap <=? out_produced ob')%nat; [done|]. by apply IH.
Qed.

End OutputProofs.

Section ZeroRunProofs.
Context {F : Type} `{FloatOps F}.
Implicit Types (r : dsp_resampler F) (ob : outbuf F) (x : cplx F).

Lemma nth_Forall {A} (P : A → Prop) (l : list A) i d :
  Forall P l → P d → P (nth i l d).
Proof.
  intros Hl Hd. revert i; induction Hl as [|a l Ha Hl IH]; intros [|i]; simpl; auto.
Qed.

Lemma dot_zero (h : list (cplx F)) hd (c : list F) n :
  Forall (eq czero) h → Forall zero_absorbs c → zero_absorbs fzero →
  dot h hd c n = czero.
Proof.
  intros Hh Hc Hz. unfold dot.
  assert (Hstep : ∀ k, fadd fzero (fmul (nth (Z.to_nat hd + k) h czero).1 (nth k c fzero)) = fzero
                      ∧ fadd fzero (fmul (nth (Z.to_nat hd + k) h czero).2 (nth k c fzero)) = fzero).
  { intros k. assert (Hx : czero = nth (Z.to_nat hd + k) h czero)
      by (apply (nth_Forall (eq czero)); auto).
    rewrite <- Hx. simpl. pose proof (nth_Forall zero_absorbs c k fzero Hc Hz) as Hk.
    split; exact Hk. }
  generalize (seq 0 n) as l. intros l.
  induction l as [|k l IH]; simpl; [done|].
  destruct (Hstep k) as [E1 E2]. rewrite E1, E2. exact IH.
Qed.

Lemma Forall_hist_store (h : list (cplx F)) hd T :
  Forall (eq czero) h → Forall (eq czero) (hist_store h hd T czero).
Proof. intros Hh. unfold hist_store. by repeat apply Forall_insert. Qed.

Lemma coeffs_push_stage1 r ob x cap :
  s1_coeffs_rev (push_stage1 r ob x cap).1 = s1_coeffs_rev r ∧
  s2_coeffs_poly (push_stage1 r ob x cap).1 = s2_coeffs_poly r.
Proof.
  rewrite push_stage1_cases. destruct (_ <=? _)%Z; [|done].
  match goal with |- context [push_stage2 ?r' ?ob' ?y' ?cap'] =>
    destruct (push_stage2_state r' ob' y' cap') as [p ->] end.
  done.
Qed.

Lemma coeffs_absorb_push_stage1 r ob x cap :
  coeffs_absorb r → coeffs_absorb (push_stage1 r ob x cap).1.
Proof.
  destruct (coeffs_push_stage1 r ob x cap) as [E1 E2].
  unfold coeffs_absorb. by rewrite E1, E2.
Qed.

Ltac zero_run_goal Hc' :=
  unfold zero_run_inv;
  cbn [fst snd set_s2_phase_state s2_advance s1_advance emit s1_history s2_history
       s1_index s2_phase_state out_produced out_log];
  refine (conj _ (conj _ (conj Hc' (conj _ (conj _ (conj _ _)))))).

Lemma zero_run_step k r ob cap :
  (0 <= k)%Z → zero_run_inv k r ob →
  (((13 * ((k + 1) / 5) + 23) / 24) <= Z.of_nat cap)%Z →
  zero_run_inv (k + 1) (push_stage1 r ob czero cap).1 (push_stage1 r ob czero cap).2.
Proof.
  intros Hk (Hh1 & Hh2 & Hc & Hi & Ho & Hp & Hlog) Hcap.
  pose proof (coeffs_absorb_push_stage1 r ob czero cap Hc) as Hc'.
  revert Hc'. rewrite push_stage1_cases.
  destruct (Z.leb_spec S1_DECIMATION (s1_index r + 1)) as [Hd|Hd];
    unfold S1_DECIMATION in Hd; rewrite Hi in Hd.
  - destruct Hc as (Hc1 & Hc2 & Hz).
    rewrite (dot_zero (s1_history (s1_advance r czero)) _ _ _
               (Forall_hist_store _ _ _ Hh1) Hc1 Hz).
    rewrite push_stage2_spec
      by (cbn [s2_phase_state]; rewrite Hp; Z.to_euclidean_division_equations; lia).
    cbn [s2_phase_state]. rewrite Hp.
    assert (Hm : ((k + 1) / 5 = k / 5 + 1 ∧ (k + 1) mod 5 = 0)%Z)
      by (Z.to_euclidean_division_equations; lia).
    destruct (Z.ltb_spec (24 * ((13 * (k / 5) + 23) / 24) - 13 * (k / 5)) S2_INTERP) as [Hl|Hl];
      unfold S2_INTERP in Hl.
    + destruct (Nat.leb_spec cap (out_produced ob)) as [Hf|Hf].
      { exfalso. rewrite (proj1 Hm) in Hcap. Z.to_euclidean_division_equations; lia. }
      intros Hc'. zero_run_goal Hc'.
      * by apply Forall_hist_store.
      * by apply Forall_hist_store.
      * rewrite (proj2 Hm). reflexivity.
      * rewrite Nat2Z.inj_succ, Ho, (proj1 Hm). Z.to_euclidean_division_equations; lia.
      * rewrite (proj1 Hm). Z.to_euclidean_division_equations; lia.
      * apply Forall_app; split; [exact Hlog|].
        constructor; [|constructor]. cbn [snd].
        apply (dot_zero _ _ _ _ (Forall_hist_store _ _ _ Hh2)); [|exact Hz].
        apply (nth_Forall (Forall zero_absorbs)); [exact Hc2|constructor].
    + intros Hc'. zero_run_goal Hc'.
      * by apply Forall_hist_store.
      * by apply Forall_hist_store.
      * rewrite (proj2 Hm). reflexivity.
      * rewrite Ho, (proj1 Hm). Z.to_euclidean_division_equations; lia.
      * rewrite (proj1 Hm). Z.to_euclidean_division_equations; lia.
      * exact Hlog.
  - intros Hc'.
    assert (Hm : ((k + 1) / 5 = k / 5 ∧ (k + 1) mod 5 = k mod 5 + 1)%Z)
      by (Z.to_euclidean_division_equations; lia).
    zero_run_goal Hc'.
    + by apply Forall_hist_store.
    + exact Hh2.
    + rewrite Hi, (proj2 Hm). reflexivity.
    + rewrite Ho, (proj1 Hm). reflexivity.
    + rewrite Hp, (proj1 Hm). reflexivity.
    + exact Hlog.
Qed.

Lemma zero_run_loop n k r ob cap :
  (0 <= k)%Z → zero_run_inv k r ob →
  (((13 * ((k + Z.of_nat n) / 5) + 23) / 24) < Z.of_nat cap)%Z →
  zero_run_inv (k + Z.of_nat n) (process_loop r ob (repeat czero n) cap).1
    (process_loop r ob (repeat czero n) cap).2.
Proof.
  revert k r ob; induction n as [|n IH]; intros k r ob Hk Hinv Hcap.
  - simpl. by rewrite Z.add_0_r.
  - assert (Hstep := zero_run_step k r ob cap Hk Hinv).
    assert (Hmono : ((13 * ((k + 1) / 5) + 23) / 24 <= (13 * ((k + Z.of_nat (S n)) / 5) + 23) / 24)%Z).
    { apply Z.div_le_mono; [lia|]. apply Z.add_le_mono_r, Z.mul_le_mono_nonneg_l; [lia|].
      apply Z.div_le_mono; lia. }
    specialize (Hstep ltac:(lia)).
    cbn [repeat process_loop].
    destruct (push_stage1 r ob czero cap) as [r' ob'].
    destruct Hstep as (S1 & S2 & S3 & S4 & S5 & S6 & S7). cbn [fst snd] in *.
    destruct (Nat.leb_spec cap (out_produced ob')) as [Hf|Hf]; [lia|].
    replace (k + Z.of_nat (S n))%Z with (k + 1 + Z.of_nat n)%Z by lia.
    apply IH; [lia|exact (conj S1 (conj S2 (conj S3 (conj S4 (conj S5 (conj S6 S7))))))|].
    replace (k + 1 + Z.of_nat n)%Z with (k + Z.of_nat (S n))%Z by lia. exact Hcap.
Qed.

Lemma Forall_repeat_eq {A} (a : A) n : Forall (eq a) (repeat a n).
Proof. induction n; constructor; auto. Qed.

Lemma zero_run_reset g : coeffs_absorb g → zero_run_inv 0 (reset g) outbuf0.
Proof.
  intros Hc. unfold zero_run_inv, reset; cbn [s1_history s2_history s1_index s2_phase_state].
  refine (conj (Forall_repeat_eq _ _) (conj (Forall_repeat_eq _ _) (conj Hc _))).
  repeat split; constructor.
Qed.

End ZeroRunProofs.

Section TableProofs.
Context {F : Type} `{FloatOps F}.

Lemma length_fold_insert {A} (f : nat → A) (pos : nat → nat) (l : list nat) (c : list A) :
  length (fold_left (fun c j => <[pos j := f j]> c) l c) = length c.
Proof.
  revert c; induction l as [|j l IH]; intros c; simpl; [done|].
  by rewrite IH, length_insert.
Qed.

(** The writes [c[j] = f(j)] for [j < n]. *)
Lemma fold_insert_seq {A} (f : nat → A) (c : list A) n i :
  (n <= length c)%nat →
  fold_left (fun c j => <[j := f j]> c) (seq 0 n) c !! i
    = if (i <? n)%nat then Some (f i) else c !! i.
Proof.
  induction n as [|n IH]; intros Hn; [done|].
  rewrite seq_S, fold_left_app. simpl.
  rewrite list_lookup_insert, (length_fold_insert f (fun j => j)), IH by lia.
  destruct (decide _) as [[-> _]|Hne].
  - destruct (Nat.ltb_spec i (S i)); [done|lia].
  - destruct (Nat.ltb_spec i n), (Nat.ltb_spec i (S n)); auto; lia.
Qed.

(** The writes [row[L - 1 - t] = f(t)] for [t < n]. *)
Lemma fold_insert_rev_seq {A} (f : nat → A) (L : nat) (row : list A) n j :
  length row = L → (n <= L)%nat → (j < L)%nat →
  fold_left (fun row t => <[(L - 1 - t)%nat := f t]> row) (seq 0 n) row !! j
    = if (L - 1 - j <? n)%nat then Some (f (L - 1 - j)%nat) else row !! j.
Proof.
  intros Hlen. induction n as [|n IH]; intros Hn Hj; [done|].
  rewrite seq_S, fold_left_app. simpl.
  rewrite list_lookup_insert, (length_fold_insert f (fun t => L - 1 - t)%nat), IH by lia.
  destruct (decide _) as [[Heq _]|Hne].
  - rewrite (proj2 (Nat.ltb_lt (L - 1 - j) (S n))) by lia.
    do 2 f_equal. lia.
  - destruct (Nat.ltb_spec (L - 1 - j) n), (Nat.ltb_spec (L - 1 - j) (S n)); auto; lia.
Qed.

Lemma fold_poly_write_alter phase ts (poly : list (list F)) (f : list F → list F) :
  fold_left (poly_write phase) ts (alter f phase poly)
  = alter (fun row => fold_left (fun row tap =>
        <[(Z.to_nat S2_TAPS_PER_PHASE - 1 - tap)%nat := s2_tap_value phase tap]> row) ts (f row))
      phase poly.
Proof.
  revert f; induction ts as [|t ts IH]; intros f; simpl; [done|].
  unfold poly_write at 2. rewrite list_alter_alter_eq. apply IH.
Qed.

Lemma fold_poly_write phase ts (poly : list (list F)) :
  fold_left (poly_write phase) ts poly
  = alter (fun row => fold_left (fun row tap =>
        <[(Z.to_nat S2_TAPS_PER_PHASE - 1 - tap)%nat := s2_tap_value phase tap]> row) ts row)
      phase poly.
Proof.
  transitivity (fold_left (poly_write phase) ts (alter (fun row => row) phase poly)).
  - by rewrite list_alter_id.
  - apply fold_poly_write_alter.
Qed.

(** After the phases [0 .. q-1] of the constructor loop, exactly the rows
    below [q] have been filled. *)
Lemma init_poly_lookup (poly : list (list F)) q p :
  fold_left (fun poly phase =>
      fold_left (poly_write phase) (seq 0 (Z.to_nat S2_TAPS_PER_PHASE)) poly)
    (seq 0 q) poly !! p
  = if (p <? q)%nat then
      (fun row => fold_left (fun row tap =>
         <[(Z.to_nat S2_TAPS_PER_PHASE - 1 - tap)%nat := s2_tap_value p tap]> row)
         (seq 0 (Z.to_nat S2_TAPS_PER_PHASE)) row) <$> poly !! p
    else poly !! p.
Proof.
  induction q as [|q IH]; [done|].
  rewrite seq_S, fold_left_app. cbn [fold_left]. rewrite Nat.add_0_l.
  rewrite fold_poly_write, list_lookup_alter.
  destruct (decide (q = p)) as [->|Hne].
  - rewrite IH. rewrite (proj2 (Nat.ltb_ge p p)) by lia.
    by rewrite (proj2 (Nat.ltb_lt p (S p))) by lia.
  - rewrite IH.
    destruct (Nat.ltb_spec p q), (Nat.ltb_spec p (S q)); auto; lia.
Qed.

Lemma dot_split_fold (h : list (cplx F)) hd (c : list F) (l : list nat) a b :
  fold_left (fun acc k =>
      let x := nth (Z.to_nat hd + k) h czero in
      let ck := nth k c fzero in
      (fadd acc.1 (fmul x.1 ck), fadd acc.2 (fmul x.2 ck))) l (a, b)
  = (fold_left (fun acc k => fadd acc (fmul (nth (Z.to_nat hd + k) h czero).1 (nth k c fzero))) l a,
     fold_left (fun acc k => fadd acc (fmul (nth (Z.to_nat hd + k) h czero).2 (nth k c fzero))) l b).
Proof.
  revert a b; induction l as [|k l IH]; intros a b; simpl; [done|]. apply IH.
Qed.

End TableProofs.

Section SourceProofs.
Context {F : Type} `{FloatOps F}.

Lemma convert_batch_cons (i q : Z) rest (c : nat) :
  convert_batch ((i, q) :: rest) c
  = if (c <? Z.to_nat BATCH_SIZE)%nat
    then (fmul (of_int i) scale, fmul (of_int q) scale) :: convert_batch rest (S c)
    else [].
Proof. reflexivity. Qed.

Lemma convert_batch_take (chunk : list (Z * Z)) (c : nat) :
  convert_batch chunk c
  = map (fun iq => (fmul (of_int iq.1) scale, fmul (of_int iq.2) scale))
      (take (Z.to_nat BATCH_SIZE - c) chunk).
Proof.
  revert c; induction chunk as [|[i q] rest IH]; intros c.
  - by rewrite take_nil.
  - rewrite convert_batch_cons. destruct (Nat.ltb_spec c (Z.to_nat BATCH_SIZE)) as [Hc|Hc].
    + replace (Z.to_nat BATCH_SIZE - c)%nat with (S (Z.to_nat BATCH_SIZE - S c)) by lia.
      rewrite IH. reflexivity.
    + replace (Z.to_nat BATCH_SIZE - c)%nat with 0%nat by lia. reflexivity.
Qed.

Lemma to_uint_small (z : Z) : (0 <= z < UINT_MOD)%Z → to_uint z = z.
Proof. intros Hz. unfold to_uint. by apply Z.mod_small. Qed.

(** Where the wait loop of [fill] stops. *)
Lemma fill_wait_stop num ex (s : iio_source F) ws res :
  fill_wait num ex s ws = Some res →
  ∃ k ex' s', ((ex, s) :: ws) !! k = Some (ex', s') ∧
    (∀ j ex_j s_j, (j < k)%nat → ((ex, s) :: ws) !! j = Some (ex_j, s_j) →
       ex_j = false ∧ streaming s_j = true ∧ (data_available s_j < num)%nat) ∧
    ((ex' = true ∧ res = ((-1)%Z, None, s')) ∨
     (ex' = false ∧ ((num <=? data_available s')%nat || negb (streaming s') = true) ∧
      res = fill_finish s')).
Proof.
  revert ex s; induction ws as [|[ex1 s1] ws IH]; intros ex s Hw; cbn [fill_wait] in Hw;
    (destruct ex;
     [injection Hw as <-; exists 0%nat, true, s;
      split; [done|split; [intros; lia|by left]]|]);
    (destruct (_ || _) eqn:Hb;
     [injection Hw as <-; exists 0%nat, false, s;
      split; [done|split; [intros; lia|by right]]|]); [done|].
  destruct (IH ex1 s1 Hw) as (k & ex' & s' & Hk & Hpre & Hr).
  exists (S k), ex', s'. split; [exact Hk|split; [|exact Hr]].
  intros [|j] ex_j s_j Hj Hl; simpl in Hl.
  - injection Hl as <- <-. apply orb_false_iff in Hb as [H1 H2].
    apply Nat.leb_gt in H1. destruct (streaming s); [|discriminate]. auto.
  - apply (Hpre j); [lia|exact Hl].
Qed.

End SourceProofs.

Section StepFacts.
Context {F : Type} `{FloatOps F}.
Implicit Types (r : dsp_resampler F) (ob : outbuf F) (x : cplx F).

(** *** The coefficient tables are never written after construction *)

Lemma coeffs_push_stage1_eq r ob x cap :
  s1_coeffs_rev (push_stage1 r ob x cap).1 = s1_coeffs_rev r ∧
  s2_coeffs_poly (push_stage1 r ob x cap).1 = s2_coeffs_poly r.
Proof.
  rewrite push_stage1_cases. destruct (_ <=? _)%Z; [|done].
  match goal with |- context [push_stage2 ?r' ?ob' ?y' ?cap'] =>
    destruct (push_stage2_state r' ob' y' cap') as [p Hp] end.
  by rewrite Hp.
Qed.

Lemma coeffs_process_loop_eq r ob inp cap :
  s1_coeffs_rev (process_loop r ob inp cap).1 = s1_coeffs_rev r ∧
  s2_coeffs_poly (process_loop r ob inp cap).1 = s2_coeffs_poly r.
Proof.
  revert r ob; induction inp as [|y inp IH]; intros r ob; simpl; [done|].
  destruct (coeffs_push_stage1_eq r ob y cap) as [H1 H2].
  destruct (push_stage1 r ob y cap) as [r' ob']. simpl in H1, H2.
  destruct (cap <=? out_produced ob')%nat; [done|].
  destruct (IH r' ob') as [-> ->]. done.
Qed.

(** *** A full output buffer *)

Lemma s2_loop_full_any fuel r ob cap :
  (cap <= out_produced ob)%nat →
  s2_loop fuel r ob cap = (r, ob, negb (s2_phase_state r <? S2_INTERP)%Z || (fuel =? 0)%nat).
Proof.
  intros Hc. destruct fuel; simpl.
  - destruct (_ <? _)%Z; done.
  - destruct (_ <? _)%Z; [|done]. by rewrite (proj2 (Nat.leb_le _ _) Hc).
Qed.

Lemma push_stage2_full r ob x cap :
  (cap <= out_produced ob)%nat →
  push_stage2 r ob x cap =
    (if (s2_phase_state r <? S2_INTERP)%Z then s2_advance r x
     else set_s2_phase_state (s2_advance r x) (s2_phase_state r - S2_INTERP), ob).
Proof.
  intros Hc. unfold push_stage2. rewrite s2_loop_full_any by exact Hc.
  change (s2_phase_state (s2_advance r x)) with (s2_phase_state r).
  destruct (Z.ltb_spec (s2_phase_state r) S2_INTERP) as [Hl|Hl]; cbn [negb orb].
  - replace (Z.to_nat (S2_INTERP - s2_phase_state r) =? 0)%nat with false; [done|].
    symmetry. apply Nat.eqb_neq. lia.
  - done.
Qed.

Lemma push_stage1_full r ob x cap :
  (cap <= out_produced ob)%nat → (push_stage1 r ob x cap).2 = ob.
Proof.
  intros Hc. rewrite push_stage1_cases. destruct (_ <=? _)%Z; [|done].
  rewrite push_stage2_full by exact Hc. done.
Qed.

(** *** Counting outputs *)

Lemma s1_index_push_stage1 r ob x cap :
  index_ok r → s1_index (push_stage1 r ob x cap).1 = ((s1_index r + 1) mod 5)%Z.
Proof.
  unfold index_ok, S1_DECIMATION. intros Hi. rewrite push_stage1_cases.
  unfold S1_DECIMATION. destruct (Z.leb_spec 5 (s1_index r + 1)).
  - match goal with |- context [push_stage2 ?r' ?ob' ?y' ?cap'] =>
      destruct (push_stage2_state r' ob' y' cap') as [p Hp] end.
    rewrite Hp. cbn. replace (s1_index r) with 4%Z by lia. reflexivity.
  - cbn. rewrite Z.mod_small; lia.
Qed.

Lemma index_ok_push_stage1 r ob x cap :
  index_ok r → index_ok (push_stage1 r ob x cap).1.
Proof.
  intros Hi. unfold index_ok. rewrite s1_index_push_stage1 by exact Hi.
  unfold S1_DECIMATION. pose proof (Z.mod_pos_bound (s1_index r + 1) 5). lia.
Qed.

Lemma produced_push_stage1 r ob x cap :
  index_ok r → phase_ok r →
  out_produced (push_stage1 r ob x cap).2
  = (out_produced ob +
     if (s1_index r =? 4)%Z && (s2_phase_state r <? S2_INTERP)%Z && (out_produced ob <? cap)%nat
     then 1 else 0)%nat.
Proof.
  unfold index_ok, phase_ok, S1_DECIMATION. intros Hi Hp. rewrite push_stage1_cases.
  unfold S1_DECIMATION. destruct (Z.leb_spec 5 (s1_index r + 1)).
  - rewrite (proj2 (Z.eqb_eq _ _)) by lia. cbn [andb].
    rewrite push_stage2_spec by (cbn; lia). cbn [s2_phase_state].
    destruct (s2_phase_state r <? S2_INTERP)%Z; [|cbn; lia].
    destruct (Nat.leb_spec cap (out_produced ob)) as [Hc|Hc].
    + rewrite (proj2 (Nat.ltb_ge _ _) Hc). cbn. lia.
    + rewrite (proj2 (Nat.ltb_lt _ _) Hc). cbn. lia.
  - rewrite (proj2 (Z.eqb_neq _ _)) by lia. cbn. lia.
Qed.

Lemma produced_push_stage1_le r ob x cap :
  index_ok r → phase_ok r →
  (out_produced (push_stage1 r ob x cap).2 <= out_produced ob +
     if (s1_index r =? 4)%Z then 1 else 0)%nat.
Proof.
  intros Hi Hp. rewrite produced_push_stage1 by assumption.
  destruct (s1_index r =? 4)%Z; cbn [andb]; [destruct (_ && _)|]; lia.
Qed.

(** While there is room, the capacity does not matter. *)
Lemma push_stage1_cap r ob x cap cap' :
  phase_ok r → (out_produced ob < cap)%nat → (out_produced ob < cap')%nat →
  push_stage1 r ob x cap = push_stage1 r ob x cap'.
Proof.
  unfold phase_ok. intros Hp Hc Hc'. rewrite !push_stage1_cases.
  destruct (_ <=? _)%Z; [|done].
  rewrite !push_stage2_spec by (cbn; lia). cbn [s2_phase_state].
  by rewrite (proj2 (Nat.leb_gt _ _) Hc), (proj2 (Nat.leb_gt _ _) Hc').
Qed.

(** [process] on a run of samples whose Stage-2 steps all fit: at most one
    output per Stage-2 step, the decimation counter advanced modulo 5, no
    [break], and the result the same for every such capacity. *)
Lemma process_loop_fits r ob inp cap cap' :
  index_ok r → phase_ok r →
  (out_produced ob + Z.to_nat ((s1_index r + Z.of_nat (length inp)) / 5) < cap)%nat →
  (out_produced ob + Z.to_nat ((s1_index r + Z.of_nat (length inp)) / 5) < cap')%nat →
  process_loop r ob inp cap = process_loop r ob inp cap' ∧
  s1_index (process_loop r ob inp cap).1 = ((s1_index r + Z.of_nat (length inp)) mod 5)%Z ∧
  (out_produced (process_loop r ob inp cap).2
     <= out_produced ob + Z.to_nat ((s1_index r + Z.of_nat (length inp)) / 5))%nat.
Proof.
  revert r ob; induction inp as [|y inp IH]; intros r ob Hi Hp Hc Hc'.
  - cbn [process_loop length fst snd]. unfold index_ok, S1_DECIMATION in Hi.
    change (Z.of_nat 0) with 0%Z. rewrite Z.add_0_r, Z.mod_small by lia.
    split; [done|split; [done|lia]].
  - unfold index_ok, S1_DECIMATION in Hi.
    cbn [length] in *. rewrite Nat2Z.inj_succ in *.
    assert (Hb : (out_produced ob < cap)%nat ∧ (out_produced ob < cap')%nat) by lia.
    cbn [process_loop].
    rewrite (push_stage1_cap r ob y cap cap') by (tauto || lia).
    pose proof (produced_push_stage1_le r ob y cap' ltac:(unfold index_ok, S1_DECIMATION; lia) Hp) as Hle.
    pose proof (s1_index_push_stage1 r ob y cap' ltac:(unfold index_ok, S1_DECIMATION; lia)) as Hidx.
    pose proof (index_ok_push_stage1 r ob y cap' ltac:(unfold index_ok, S1_DECIMATION; lia)) as Hi'.
    pose proof (phase_ok_push_stage1 r ob y cap' Hp) as Hp'.
    destruct (push_stage1 r ob y cap') as [r' ob']. cbn [fst snd] in *.
    (* the Stage-2 steps still to come *)
    assert (Hq : (Z.to_nat ((s1_index r + Z.succ (Z.of_nat (length inp))) / 5)
                  = (if (s1_index r =? 4)%Z then 1 else 0)
                    + Z.to_nat ((s1_index r' + Z.of_nat (length inp)) / 5))%nat).
    { rewrite Hidx. destruct (Z.eqb_spec (s1_index r) 4) as [E|E].
      - rewrite E. change ((4 + 1) mod 5)%Z with 0%Z. rewrite Z.add_0_l.
        replace (4 + Z.succ (Z.of_nat (length inp)))%Z with (Z.of_nat (length inp) + 1 * 5)%Z
          by lia.
        rewrite Z.div_add by lia. rewrite Z2Nat.inj_add; [lia| |lia].
        apply Z.div_pos; lia.
      - rewrite Z.mod_small by lia. rewrite Nat.add_0_l. do 2 f_equal. lia. }
    rewrite Hq in Hc, Hc' |- *.
    assert (Hq0 : (0 <= (s1_index r' + Z.of_nat (length inp)) / 5)%Z)
      by (apply Z.div_pos; unfold index_ok, S1_DECIMATION in Hi'; lia).
    destruct (Nat.leb_spec cap (out_produced ob')) as [Hf|Hf]; [destruct (s1_index r =? 4)%Z; lia|].
    destruct (Nat.leb_spec cap' (out_produced ob')) as [Hf'|Hf']; [destruct (s1_index r =? 4)%Z; lia|].
    destruct (IH r' ob' Hi' Hp') as [Heq [Hid Hpr]];
      [destruct (s1_index r =? 4)%Z; lia|destruct (s1_index r =? 4)%Z; lia|].
    split; [exact Heq|split].
    + rewrite Hid, Hidx. rewrite Zplus_mod_idemp_l. f_equal. lia.
    + destruct (s1_index r =? 4)%Z; lia.
Qed.

End StepFacts.

Section ChunkFacts.
Context {F : Type} `{FloatOps F}.
Implicit Types (r : dsp_resampler F) (ob : outbuf F) (x : cplx F).

Lemma join_outbuf0 ob : join ob outbuf0 = ob.
Proof. destruct ob as [p l]. unfold join. cbn. by rewrite Nat.add_0_r, app_nil_r. Qed.

Lemma join_emit ob ob' y : join ob (emit ob' y) = emit (join ob ob') y.
Proof.
  unfold join, emit. cbn [out_produced out_log]. f_equal; [lia|].
  by rewrite map_app, app_assoc.
Qed.

Lemma join_full ob ob' cap :
  (out_produced ob <= cap)%nat →
  (cap <=? out_produced (join ob ob'))%nat = (cap - out_produced ob <=? out_produced ob')%nat.
Proof.
  intros Hc. unfold join. cbn [out_produced].
  destruct (Nat.leb_spec cap (out_produced ob + out_produced ob'));
    destruct (Nat.leb_spec (cap - out_produced ob) (out_produced ob')); lia.
Qed.

Lemma s2_loop_join fuel r ob ob' cap :
  (out_produced ob <= cap)%nat →
  s2_loop fuel r (join ob ob') cap =
    let '(r2, ob2, b) := s2_loop fuel r ob' (cap - out_produced ob) in (r2, join ob ob2, b).
Proof.
  intros Hc. revert r ob'; induction fuel as [|fuel IH]; intros r ob'; cbn [s2_loop].
  - by destruct (_ <? _)%Z.
  - destruct (_ <? _)%Z; [|done].
    rewrite join_full by exact Hc.
    destruct (_ <=? _)%nat; [done|].
    rewrite <- join_emit. apply IH.
Qed.

Lemma push_stage2_join r ob ob' x cap :
  (out_produced ob <= cap)%nat →
  push_stage2 r (join ob ob') x cap =
    let '(r2, ob2) := push_stage2 r ob' x (cap - out_produced ob) in (r2, join ob ob2).
Proof.
  intros Hc. unfold push_stage2. rewrite s2_loop_join by exact Hc.
  by destruct (s2_loop _ _ _ _) as [[r2 ob2] []].
Qed.

Lemma push_stage1_join r ob ob' x cap :
  (out_produced ob <= cap)%nat →
  push_stage1 r (join ob ob') x cap =
    let '(r2, ob2) := push_stage1 r ob' x (cap - out_produced ob) in (r2, join ob ob2).
Proof.
  intros Hc. rewrite !push_stage1_cases.
  destruct (_ <=? _)%Z; [by apply push_stage2_join|done].
Qed.

Lemma process_loop_join r ob ob' inp cap :
  (out_produced ob <= cap)%nat →
  process_loop r (join ob ob') inp cap =
    let '(r2, ob2) := process_loop r ob' inp (cap - out_produced ob) in (r2, join ob ob2).
Proof.
  intros Hc. revert r ob'; induction inp as [|y inp IH]; intros r ob'; cbn [process_loop]; [done|].
  rewrite push_stage1_join by exact Hc.
  destruct (push_stage1 r ob' y (cap - out_produced ob)) as [r2 ob2].
  rewrite join_full by exact Hc.
  destruct (_ <=? _)%nat; [done|]. apply IH.
Qed.

Lemma process_loop_continue r ob a b cap :
  (out_produced (process_loop r ob a cap).2 < cap)%nat →
  process_loop r ob (a ++ b) cap =
    process_loop (process_loop r ob a cap).1 (process_loop r ob a cap).2 b cap.
Proof.
  revert r ob; induction a as [|y a IH]; intros r ob Hc; simpl in *; [done|].
  destruct (push_stage1 r ob y cap) as [r' ob'].
  destruct (Nat.leb_spec cap (out_produced ob')) as [Hf|Hf]; [simpl in Hc; lia|].
  by apply IH.
Qed.

(** Feeding [a ++ b] in one call is feeding [a], then [b] with the room
    left, when [a] does not fill the buffer. *)
Lemma process_app_split r a b cap :
  ((process r a cap).2 < cap)%nat →
  process r (a ++ b) cap =
    let '(ra, oba, na) := process r a cap in
    let '(rb, obb, nb) := process ra b (cap - na) in
    (rb, join oba obb, (na + nb)%nat).
Proof.
  rewrite (process_unfold r a cap). cbn [fst snd]. intros Hc.
  rewrite (process_unfold r (a ++ b) cap), process_loop_continue by exact Hc.
  set (ra := (process_loop r outbuf0 a cap).1).
  set (oba := (process_loop r outbuf0 a cap).2).
  rewrite (process_unfold ra b). cbn [fst snd].
  assert (E : process_loop ra oba b cap =
    let '(r2, ob2) := process_loop ra outbuf0 b (cap - out_produced oba) in (r2, join oba ob2)).
  { rewrite <- (join_outbuf0 oba) at 1. apply process_loop_join. unfold oba; lia. }
  rewrite E.
  destruct (process_loop ra outbuf0 b (cap - out_produced oba)) as [rb obb]. reflexivity.
Qed.

Lemma index_ok_process_loop r ob inp cap :
  index_ok r → index_ok (process_loop r ob inp cap).1.
Proof.
  revert r ob; induction inp as [|y inp IH]; intros r ob Hr; simpl; [done|].
  pose proof (index_ok_push_stage1 r ob y cap Hr) as Hs.
  destruct (push_stage1 r ob y cap) as [r' ob'].
  destruct (cap <=? out_produced ob')%nat; [done|]. by apply IH.
Qed.

End ChunkFacts.

Section ControlFacts.
Context {F G : Type} `{FloatOps F} `{FloatOps G}.

Lemma same_ctrl_s2_advance (r : dsp_resampler F) (r' : dsp_resampler G) x x' :
  same_ctrl r r' → same_ctrl (s2_advance r x) (s2_advance r' x').
Proof. intros (H1 & H2 & H3 & H4). unfold same_ctrl; cbn; rewrite ?H1, ?H2, ?H3, ?H4; done. Qed.

Lemma s2_loop_sim fuel (r : dsp_resampler F) (r' : dsp_resampler G) ob ob' cap :
  same_ctrl r r' → out_produced ob = out_produced ob' →
  same_ctrl (s2_loop fuel r ob cap).1.1 (s2_loop fuel r' ob' cap).1.1 ∧
  out_produced (s2_loop fuel r ob cap).1.2 = out_produced (s2_loop fuel r' ob' cap).1.2 ∧
  (s2_loop fuel r ob cap).2 = (s2_loop fuel r' ob' cap).2.
Proof.
  revert r r' ob ob'; induction fuel as [|fuel IH]; intros r r' ob ob' Hc Ho;
    pose proof Hc as (H1 & H2 & H3 & H4); simpl; rewrite H4.
  - by destruct (_ <? _)%Z.
  - destruct (_ <? _)%Z; [|done].
    rewrite Ho. destruct (_ <=? _)%nat; [done|].
    apply IH; [|cbn; lia].
    unfold same_ctrl; cbn; rewrite ?H1, ?H2, ?H3, ?H4; done.
Qed.

Lemma push_stage2_sim (r : dsp_resampler F) (r' : dsp_resampler G) ob ob' x x' cap :
  same_ctrl r r' → out_produced ob = out_produced ob' →
  same_ctrl (push_stage2 r ob x cap).1 (push_stage2 r' ob' x' cap).1 ∧
  out_produced (push_stage2 r ob x cap).2 = out_produced (push_stage2 r' ob' x' cap).2.
Proof.
  intros Hc Ho. unfold push_stage2.
  pose proof (same_ctrl_s2_advance r r' x x' Hc) as Ha.
  assert (Hf : s2_phase_state (s2_advance r x) = s2_phase_state (s2_advance r' x'))
    by apply Ha.
  rewrite Hf.
  destruct (s2_loop_sim (Z.to_nat (S2_INTERP - s2_phase_state (s2_advance r' x')))
              (s2_advance r x) (s2_advance r' x') ob ob' cap Ha Ho) as (Hs & Hp & Hb).
  destruct (s2_loop _ (s2_advance r x) _ _) as [[r2 ob2] b].
  destruct (s2_loop _ (s2_advance r' x') _ _) as [[r2' ob2'] b'].
  cbn [fst snd] in *. subst b'.
  destruct b; [|done]. split; [|done].
  destruct Hs as (H1 & H2 & H3 & H4). unfold same_ctrl; cbn; rewrite ?H1, ?H2, ?H3, ?H4; done.
Qed.

Lemma push_stage1_sim (r : dsp_resampler F) (r' : dsp_resampler G) ob ob' x x' cap :
  same_ctrl r r' → out_produced ob = out_produced ob' →
  same_ctrl (push_stage1 r ob x cap).1 (push_stage1 r' ob' x' cap).1 ∧
  out_produced (push_stage1 r ob x cap).2 = out_produced (push_stage1 r' ob' x' cap).2.
Proof.
  intros Hc Ho. pose proof Hc as (H1 & H2 & H3 & H4).
  rewrite !push_stage1_cases. rewrite H1.
  destruct (_ <=? _)%Z.
  - apply push_stage2_sim; [|exact Ho].
    unfold same_ctrl; cbn; rewrite ?H1, ?H2, ?H3, ?H4; done.
  - split; [|exact Ho]. unfold same_ctrl; cbn; rewrite ?H1, ?H2, ?H3, ?H4; done.
Qed.

Lemma process_loop_sim (r : dsp_resampler F) (r' : dsp_resampler G) ob ob'
    (inp : list (cplx F)) (inp' : list (cplx G)) cap :
  same_ctrl r r' → out_produced ob = out_produced ob' → length inp = length inp' →
  same_ctrl (process_loop r ob inp cap).1 (process_loop r' ob' inp' cap).1 ∧
  out_produced (process_loop r ob inp cap).2 = out_produced (process_loop r' ob' inp' cap).2.
Proof.
  revert r r' ob ob' inp'; induction inp as [|y inp IH];
    intros r r' ob ob' [|y' inp'] Hc Ho Hl; simpl in Hl; try lia; simpl; [done|].
  destruct (push_stage1_sim r r' ob ob' y y' cap Hc Ho) as [Hc' Ho'].
  destruct (push_stage1 r ob y cap) as [r1 ob1].
  destruct (push_stage1 r' ob' y' cap) as [r1' ob1']. cbn [fst snd] in *.
  rewrite Ho'. destruct (_ <=? _)%nat; [done|].
  apply IH; auto.
Qed.

End ControlFacts.

Section UtilFacts.

Lemma fft_shift_index_nat (n h i : nat) :
  h = (n / 2)%nat → (i < n)%nat →
  fft_shift_index (Z.of_nat n) (Z.of_nat i) = Z.of_nat ((i + h) mod n).
Proof.
  intros -> Hi. unfold fft_shift_index.
  rewrite Z.quot_div_nonneg by lia.
  rewrite Z.rem_mod_nonneg by (try apply Z.add_nonneg_nonneg; try apply Z.div_pos; lia).
  by rewrite Nat2Z.inj_mod, Nat2Z.inj_add, Nat2Z.inj_div.
Qed.

Lemma map_add_seq_Z (f : Z → Z) (s k c : nat) :
  (∀ i, (i < k)%nat → f (Z.of_nat (s + i)) = Z.of_nat (c + i)) →
  map f (map Z.of_nat (seq s k)) = map Z.of_nat (seq c k).
Proof.
  intros Hf.
  replace (seq s k) with (map (Nat.add s) (seq 0 k))
    by (rewrite <- (Nat.add_0_r s) at 2; apply (fmap_add_seq s 0 k)).
  replace (seq c k) with (map (Nat.add c) (seq 0 k))
    by (rewrite <- (Nat.add_0_r c) at 2; apply (fmap_add_seq c 0 k)).
  rewrite !map_map. apply map_ext_in. intros i Hin. apply in_seq in Hin.
  apply Hf. lia.
Qed.

Lemma fft_shift_rotation_nat (n : nat) :
  (0 < n)%nat →
  map (fft_shift_index (Z.of_nat n)) (map Z.of_nat (seq 0 n)) =
    map Z.of_nat (seq (n / 2) (n - n / 2)) ++ map Z.of_nat (seq 0 (n / 2)).
Proof.
  intros Hn. set (h := (n / 2)%nat).
  assert (Hh : (h <= n)%nat) by (apply Nat.Div0.div_le_upper_bound; lia).
  replace (seq 0 n) with (seq 0 (n - h) ++ seq (0 + (n - h)) h)
    by (rewrite <- seq_app; f_equal; lia).
  rewrite Nat.add_0_l, !map_app. f_equal.
  - rewrite <- (Nat.add_0_l h) at 2.
    apply map_add_seq_Z. intros i Hi. rewrite Nat.add_0_l.
    rewrite (fft_shift_index_nat n h i) by (done || lia).
    rewrite Nat.mod_small by lia. f_equal. lia.
  - apply map_add_seq_Z. intros i Hi.
    rewrite (fft_shift_index_nat n h) by (done || lia).
    f_equal. rewrite Nat.add_0_l.
    replace (n - h + i + h)%nat with (i + 1 * n)%nat by lia.
    rewrite Nat.Div0.mod_add. apply Nat.mod_small. lia.
Qed.

Lemma zrange_nat (a b : nat) :
  zrange (Z.of_nat a) (Z.of_nat b) = map Z.of_nat (seq a (b - a)).
Proof. unfold zrange. rewrite Nat2Z.id. f_equal. f_equal. lia. Qed.

Lemma quot_nonneg_mono (a b d : Z) : (0 <= a <= b → 0 < d → Z.quot a d <= Z.quot b d)%Z.
Proof.
  intros Hab Hd. rewrite !Z.quot_div_nonneg by lia. apply Z.div_le_mono; lia.
Qed.

Lemma bins_prefix (len pw : Z) (k : nat) :
  (0 <= len)%Z → (0 < pw)%Z →
  concat (map (bin_range len pw) (map Z.of_nat (seq 0 k))) =
    map Z.of_nat (seq 0 (Z.to_nat (Z.quot (Z.of_nat k * len) pw))).
Proof.
  intros Hl Hp. induction k as [|k IH].
  - by rewrite Z.mul_0_l, Z.quot_0_l by lia.
  - rewrite seq_S, !map_app, concat_app, IH. cbn [map concat]. rewrite app_nil_r.
    unfold bin_range, bin_start, bin_end.
    assert (Hm : (Z.quot (Z.of_nat k * len) pw <= Z.quot ((Z.of_nat k + 1) * len) pw)%Z)
      by (apply quot_nonneg_mono; nia).
    assert (H0 : (0 <= Z.quot (Z.of_nat k * len) pw)%Z)
      by (rewrite Z.quot_div_nonneg by lia; apply Z.div_pos; lia).
    rewrite Nat.add_0_l, <- map_app, <- seq_app. f_equal. f_equal.
    rewrite Nat2Z.inj_succ, <- Z.add_1_r. lia.
Qed.

End UtilFacts.

Section WorkerFacts.
Context {F : Type} `{FloatOps F}.

Lemma process_fits (r : dsp_resampler F) inp cap cap' :
  index_ok r → phase_ok r →
  (Z.to_nat ((s1_index r + Z.of_nat (length inp)) / 5) < cap)%nat →
  (Z.to_nat ((s1_index r + Z.of_nat (length inp)) / 5) < cap')%nat →
  process r inp cap = process r inp cap' ∧
  s1_index (process r inp cap).1.1 = ((s1_index r + Z.of_nat (length inp)) mod 5)%Z ∧
  ((process r inp cap).2 <= Z.to_nat ((s1_index r + Z.of_nat (length inp)) / 5))%nat.
Proof.
  intros Hi Hp Hc Hc'.
  destruct (process_loop_fits r outbuf0 inp cap cap' Hi Hp Hc Hc') as (Heq & Hid & Hle).
  rewrite !process_unfold, Heq. cbn [fst snd]. rewrite <- Heq. auto.
Qed.

Lemma length_convert_batch (chunk : list (Z * Z)) :
  (length (convert_batch (F:=F) chunk 0) <= Z.to_nat BATCH_SIZE)%nat.
Proof. rewrite convert_batch_take, length_map, length_take. lia. Qed.

Lemma worker_steps_bound (s : iio_source F) chunk :
  index_ok (m_resampler s) →
  ((s1_index (m_resampler s) + Z.of_nat (length (convert_batch (F:=F) chunk 0))) / 5 <= 6554)%Z.
Proof.
  intros Hi. pose proof (length_convert_batch chunk) as Hl.
  unfold index_ok, S1_DECIMATION in Hi. unfold BATCH_SIZE in Hl.
  apply Nat2Z.inj_le in Hl. rewrite Z2Nat.id in Hl by lia.
  assert (((s1_index (m_resampler s) + Z.of_nat (length (convert_batch (F:=F) chunk 0))) / 5
           < 6555)%Z) by (apply Z.div_lt_upper_bound; lia).
  lia.
Qed.

Lemma worker_process_fits (s : iio_source F) chunk cap' :
  index_ok (m_resampler s) → phase_ok (m_resampler s) →
  (Z.to_nat ((s1_index (m_resampler s) + Z.of_nat (length (convert_batch (F:=F) chunk 0))) / 5)
     < cap')%nat →
  worker_process s chunk = process (m_resampler s) (convert_batch chunk 0) cap' ∧
  ((worker_process s chunk).2
     <= Z.to_nat ((s1_index (m_resampler s) + Z.of_nat (length (convert_batch (F:=F) chunk 0))) / 5))%nat.
Proof.
  intros Hi Hp Hc. pose proof (worker_steps_bound s chunk Hi) as Hm.
  unfold worker_process.
  destruct (process_fits (m_resampler s) (convert_batch chunk 0) (Z.to_nat BATCH_SIZE) cap'
              Hi Hp ltac:(unfold BATCH_SIZE; lia) Hc) as (Heq & _ & Hle).
  auto.
Qed.

Lemma worker_iteration_resampler (s : iio_source F) chunk lock_ok :
  m_resampler (worker_iteration s chunk lock_ok) = (worker_process s chunk).1.1.
Proof.
  unfold worker_iteration. destruct (worker_process s chunk) as [[rs ob] p]. cbn [fst snd].
  destruct (0 <? p)%nat; [|done]. destruct lock_ok; [|done].
  destruct (cb s) as [c|]; [|done].
  destruct (cb_write c _ p) as [c' w]. done.
Qed.

End WorkerFacts.

(** * The claims *)

Section Claims.
Context {F : Type} `{FloatOps F}.

(** C1 (corrected).  From the state [reset()] leaves, [N] zero samples with
    [out_cap >= ceil(N * 13 / 120) + 1] produce exactly
    [ceil(13 * floor(N / 5) / 24)] outputs, all zero (the taps being finite
    floats, [0 + 0 * c = 0]); for [N] a multiple of 120 that is exactly
    [13 * N / 120]. *)
Theorem process_zero_input (g : dsp_resampler F) (N cap : nat) :
  coeffs_absorb g →
  (Z.of_nat cap >= (13 * Z.of_nat N + 119) / 120 + 1)%Z →
  Z.of_nat (process (reset g) (repeat czero N) cap).2
    = ((13 * (Z.of_nat N / 5) + 23) / 24)%Z ∧
  Forall (fun iv => iv.2 = czero) (out_log (process (reset g) (repeat czero N) cap).1.2) ∧
  ((Z.of_nat N mod 120 = 0)%Z →
   Z.of_nat (process (reset g) (repeat czero N) cap).2 = (13 * (Z.of_nat N / 120))%Z).
Proof.
  intros Hc Hcap. rewrite process_unfold. cbn [fst snd].
  assert (Hinv := zero_run_loop N 0 (reset g) outbuf0 cap ltac:(lia) (zero_run_reset g Hc)).
  rewrite Z.add_0_l in Hinv.
  assert (Hlt : ((13 * (Z.of_nat N / 5) + 23) / 24 < Z.of_nat cap)%Z)
    by (Z.to_euclidean_division_equations; lia).
  specialize (Hinv Hlt).
  destruct Hinv as (_ & _ & _ & _ & Ho & _ & Hlog).
  split; [exact Ho|split; [exact Hlog|]].
  intros H120. rewrite Ho. Z.to_euclidean_division_equations; lia.
Qed.

(** C4.  [process] writes [out_buffer[0]], ..., [out_buffer[n-1]] in this
    order, [n <= out_cap], and once the buffer is full the remaining inputs
    of the call are ignored: appending inputs changes nothing. *)
Theorem process_output_within_cap (r : dsp_resampler F) (inp rest : list (cplx F)) (cap : nat) :
  map fst (out_log (process r inp cap).1.2) = seq 0 (process r inp cap).2 ∧
  ((process r inp cap).2 <= cap)%nat ∧
  (inp ≠ [] → (cap <= (process r inp cap).2)%nat →
   process r (inp ++ rest) cap = process r inp cap).
Proof.
  rewrite !process_unfold. cbn [fst snd].
  assert (Hob : outbuf_inv cap (process_loop r outbuf0 inp cap).2)
    by (apply outbuf_inv_process_loop; split; simpl; [lia|reflexivity]).
  destruct Hob as [Hle Hmap].
  split; [exact Hmap|split; [exact Hle|]].
  intros Hne Hfull. rewrite (process_loop_app r outbuf0 inp rest cap Hne Hfull).
  reflexivity.
Qed.

(** C5 (corrected).  [s2_phase_state] is 0 after [reset()] and construction,
    and stays in [[0, 24)] after every consumed input sample, through
    [push_stage1] and [process]. *)
Theorem s2_phase_state_range (g r : dsp_resampler F) (ob : outbuf F) (x : cplx F)
    (inp : list (cplx F)) (cap : nat) :
  s2_phase_state (reset g) = 0%Z ∧ s2_phase_state (dsp_resampler_ctor g) = 0%Z ∧
  ((0 <= s2_phase_state r < 24)%Z →
   (0 <= s2_phase_state (push_stage1 r ob x cap).1 < 24)%Z ∧
   (0 <= s2_phase_state (process r inp cap).1.1 < 24)%Z).
Proof.
  split; [reflexivity|split; [reflexivity|]].
  intros Hr. split.
  - by apply phase_ok_push_stage1.
  - rewrite process_unfold. by apply phase_ok_process_loop.
Qed.

(** C6.  After [reset()] (and construction) and after every input sample
    consumed, [s1_history[k] == s1_history[k + 61]] for [k < 61] and
    [s2_history[k] == s2_history[k + 57]] for [k < 57]. *)
Theorem double_storage_invariant (g r : dsp_resampler F) (ob : outbuf F) (x : cplx F)
    (inp : list (cplx F)) (cap : nat) :
  history_inv (reset g) ∧ history_inv (dsp_resampler_ctor g) ∧
  (history_inv r →
   history_inv (push_stage1 r ob x cap).1 ∧ history_inv (process r inp cap).1.1).
Proof.
  split; [apply history_inv_reset|split].
  - exact (history_inv_reset g).
  - intros Hr. split.
    + by apply history_inv_push_stage1.
    + rewrite process_unfold. by apply history_inv_process_loop.
Qed.

(** C2.  The constructor stores [s1_coeffs_rev[i] = S1_COEFFS[60 - i]].
    With [s1_index] in [[0, 5)], [push_stage1] stores the sample and
    advances [s1_head]; when [s1_index] reaches 5 (it was 4) it resets it to
    0 and feeds Stage 2 with the 61-term dot product of the window at the
    new [s1_head] with [s1_coeffs_rev]; otherwise Stage 2 is not called.
    The dot product is computed part by part with the same real taps. *)
Theorem stage1_decimation :
  (∀ g : dsp_resampler F, length (s1_coeffs_rev g) = Z.to_nat S1_TAPS →
   ∀ i : nat, (i < Z.to_nat S1_TAPS)%nat →
   s1_coeffs_rev (dsp_resampler_ctor g) !! i = S1_COEFFS !! (Z.to_nat S1_TAPS - 1 - i)%nat) ∧
  (∀ (r : dsp_resampler F) (ob : outbuf F) (x : cplx F) (cap : nat),
   (0 <= s1_index r < S1_DECIMATION)%Z →
   s1_index (push_stage1 r ob x cap).1 = ((s1_index r + 1) mod S1_DECIMATION)%Z ∧
   (s1_index r = S1_DECIMATION - 1 →
    push_stage1 r ob x cap =
      push_stage2
        (mk_resampler 0 (s1_history (s1_advance r x)) (s1_coeffs_rev r)
           (s1_head (s1_advance r x)) (s2_coeffs_poly r) (s2_history r)
           (s2_head r) (s2_phase_state r)) ob
        (dot (s1_history (s1_advance r x)) (s1_head (s1_advance r x))
           (s1_coeffs_rev r) (Z.to_nat S1_TAPS)) cap)%Z ∧
   (s1_index r < S1_DECIMATION - 1 → push_stage1 r ob x cap = (s1_advance r x, ob))%Z) ∧
  (∀ (h : list (cplx F)) (hd : Z) (c : list F) (n : nat),
   dot h hd c n = (dot_part fst h hd c n, dot_part snd h hd c n)).
Proof.
  split; [|split].
  - intros g Hlen i Hi. unfold dsp_resampler_ctor, init_s1_coeffs_rev.
    cbn [s1_coeffs_rev reset].
    rewrite (fold_insert_seq (fun i => nth (Z.to_nat S1_TAPS - 1 - i) S1_COEFFS fzero))
      by lia.
    rewrite (proj2 (Nat.ltb_lt i _)) by exact Hi.
    symmetry. destruct (nth_lookup_or_length S1_COEFFS (Z.to_nat S1_TAPS - 1 - i) fzero)
      as [Hs|Hs]; [exact Hs|].
    unfold S1_COEFFS in Hs. rewrite length_map in Hs.
    change (length S1_COEFFS_LIT) with 61%nat in Hs.
    change (Z.to_nat S1_TAPS) with 61%nat in *. lia.
  - intros r ob x cap Hidx. rewrite push_stage1_cases.
    unfold S1_DECIMATION in *.
    destruct (Z.leb_spec 5 (s1_index r + 1)) as [Hd|Hd].
    + match goal with |- context [push_stage2 ?r' ?ob' ?y' ?cap'] =>
        destruct (push_stage2_state r' ob' y' cap') as [p Hp] end.
      rewrite Hp. cbn [s1_index set_s2_phase_state s2_advance].
      split; [|split]; [|reflexivity|lia].
      replace (s1_index r) with 4%Z by lia. reflexivity.
    + split; [|split]; [|lia|reflexivity].
      cbn [fst s1_index s1_advance]. rewrite Z.mod_small; lia.
  - intros h hd c n. unfold dot, dot_part. apply dot_split_fold.
Qed.

(** C3.  For every phase [p < 13] and tap [k < 57],
    [s2_coeffs_poly[p][56 - k]] is [S2_COEFFS_RAW[p + 13 k]] when
    [p + 13 k < 729] and [0.0f] otherwise. *)
Theorem s2_coeffs_poly_layout (g : dsp_resampler F) (p k : nat) :
  length (s2_coeffs_poly g) = Z.to_nat S2_PHASES →
  Forall (fun row => length row = Z.to_nat S2_TAPS_PER_PHASE) (s2_coeffs_poly g) →
  (p < Z.to_nat S2_PHASES)%nat → (k < Z.to_nat S2_TAPS_PER_PHASE)%nat →
  s2_coeffs_poly (dsp_resampler_ctor g) !! p ≫= (fun row => row !! (56 - k)%nat)
  = Some (if (p + 13 * k <? Z.to_nat S2_TAPS_TOTAL)%nat
          then nth (p + 13 * k) S2_COEFFS_RAW fzero else fzero).
Proof.
  intros Hlen Hrows Hp Hk.
  unfold dsp_resampler_ctor, init_s2_coeffs_poly. cbn [s2_coeffs_poly reset].
  rewrite init_poly_lookup, (proj2 (Nat.ltb_lt p _)) by exact Hp.
  destruct (lookup_lt_is_Some_2 (s2_coeffs_poly g) p ltac:(lia)) as [row Hrow].
  rewrite Hrow. cbn [fmap option_fmap option_map mbind option_bind].
  pose proof (Forall_lookup_1 _ _ _ _ Hrows Hrow) as Hrl. cbn beta in Hrl.
  change (Z.to_nat S2_TAPS_PER_PHASE) with 57%nat in *.
  rewrite (fold_insert_rev_seq (s2_tap_value p) 57 row 57 (56 - k)) by lia.
  rewrite (proj2 (Nat.ltb_lt _ 57)) by lia.
  replace (57 - 1 - (56 - k))%nat with k by lia.
  unfold s2_tap_value. change (Z.to_nat S2_PHASES) with 13%nat.
  by rewrite Nat.mul_comm.
Qed.

(** C9.  Both coefficient tables equal their reverse, as tables of stored
    single-precision constants. *)
Theorem coeff_tables_symmetric :
  S1_COEFFS (F:=F) = rev S1_COEFFS ∧ S2_COEFFS_RAW (F:=F) = rev S2_COEFFS_RAW.
Proof.
  unfold S1_COEFFS, S2_COEFFS_RAW. rewrite <- !map_rev.
  split; f_equal; vm_compute; reflexivity.
Qed.

(** C10.  A worker iteration converts at most [BATCH_SIZE = 32768]
    samples of the driver chunk, the first ones, and feeds them to
    [process]; the samples after the first 32768 have no effect: the
    iteration gives the same result on the chunk cut to its first 32768
    samples, so they are neither processed nor counted in
    [m_overflow_count]. *)
Theorem worker_batch_limit (s : iio_source F) (chunk : list (Z * Z)) (lock_ok : bool) :
  convert_batch chunk 0
    = map (fun iq => (fmul (of_int iq.1) scale, fmul (of_int iq.2) scale))
        (take (Z.to_nat BATCH_SIZE) chunk) ∧
  (length (convert_batch chunk 0) <= Z.to_nat BATCH_SIZE)%nat ∧
  worker_iteration s chunk lock_ok = worker_iteration s (take (Z.to_nat BATCH_SIZE) chunk) lock_ok.
Proof.
  assert (Hc : ∀ l, convert_batch l 0
    = map (fun iq => (fmul (of_int iq.1) scale, fmul (of_int iq.2) scale))
        (take (Z.to_nat BATCH_SIZE) l)).
  { intros l. by rewrite convert_batch_take, Nat.sub_0_r. }
  split; [|split].
  - apply Hc.
  - rewrite Hc, length_map, length_take. lia.
  - unfold worker_iteration, worker_process. rewrite (Hc chunk), (Hc (take _ chunk)).
    by rewrite take_take, Nat.min_id.
Qed.

(** C7 (as the code behaves).  Take a source with its ring buffer
    allocated and [m_overflow_count] an [unsigned int] value.  In a worker
    iteration where [process] returns [produced] samples, if [try_lock]
    succeeds the ring buffer receives the first [written <= produced] of
    them and [m_overflow_count] becomes
    [(m_overflow_count + (produced - written)) mod 2^32]; if it fails the
    ring buffer is untouched and [m_overflow_count] becomes
    [(m_overflow_count + produced) mod 2^32]. *)
Theorem worker_overflow_accounting (s : iio_source F) (c : circular_buffer F)
    (chunk : list (Z * Z)) :
  cb s = Some c → (0 <= m_overflow_count s < UINT_MOD)%Z →
  let '(_, ob, produced) := worker_process s chunk in
  (∃ (c' : circular_buffer F) (written : nat),
     cb (worker_iteration s chunk true) = Some c' ∧
     (written <= produced)%nat ∧
     cb_items c' = cb_items c ++ take written (map snd (out_log ob)) ∧
     m_overflow_count (worker_iteration s chunk true)
       = to_uint (m_overflow_count s + Z.of_nat produced - Z.of_nat written)) ∧
  (cb (worker_iteration s chunk false) = Some c ∧
   m_overflow_count (worker_iteration s chunk false)
     = to_uint (m_overflow_count s + Z.of_nat produced)).
Proof.
  intros Hcb Hov. unfold worker_iteration.
  destruct (worker_process s chunk) as [[rs ob] produced].
  rewrite Hcb.
  destruct (Nat.ltb_spec 0 produced) as [Hp|Hp].
  - split.
    + destruct (cb_write c (map snd (out_log ob)) produced) as [c' written] eqn:Hw.
      unfold cb_write in Hw. injection Hw as <- <-.
      exists (mk_circular_buffer (cb_items c ++ take (Nat.min produced
               (cb_buf_len c - length (cb_items c))) (map snd (out_log ob))) (cb_buf_len c)),
        (Nat.min produced (cb_buf_len c - length (cb_items c))).
      cbn [cb m_overflow_count cb_items].
      split; [done|split; [lia|split; [done|]]].
      destruct (Nat.ltb_spec (Nat.min produced (cb_buf_len c - length (cb_items c))) produced).
      * f_equal. rewrite Nat2Z.inj_sub by lia. lia.
      * rewrite to_uint_small by lia. lia.
    + cbn [cb m_overflow_count set_overflow]. done.
  - assert (produced = 0%nat) as -> by lia. cbn [cb m_overflow_count].
    split.
    + exists c, 0%nat. cbn [take]. rewrite app_nil_r, to_uint_small by lia.
      split; [done|split; [lia|split; [done|lia]]].
    + rewrite to_uint_small by lia. split; [done|lia].
Qed.

(** C8 (as the code behaves).  If the ring buffer is not allocated,
    [fill] returns [-1] at once, storing nothing and changing nothing.
    Otherwise, when it returns, its wait loop has stopped at check [k]:
    the first check that read the exit flag [ex'] set, [streaming] false,
    or at least [num] samples available ([ex', s'] is what that check
    read; every earlier check read the flag clear, [streaming] set and
    fewer than [num] samples).  It returns [-1] exactly when [ex'] is set
    or [streaming] is false there, storing nothing; otherwise it returns
    [0] with at least [num] samples available, stores [m_overflow_count]
    into [*overruns] and sets it to 0, changing nothing else (no sample is
    removed from the ring buffer). *)
Theorem fill_result (s : iio_source F) (num : nat) (ex : bool)
    (ws : list (bool * iio_source F)) (ret : Z) (ov : option Z) (s'' : iio_source F) :
  fill s num ex ws = Some (ret, ov, s'') →
  (cb s = None → ret = (-1)%Z ∧ ov = None ∧ s'' = s) ∧
  (cb s ≠ None →
   ∃ k ex' s',
     ((ex, if streaming s then s else start s) :: ws) !! k = Some (ex', s') ∧
     (∀ j ex_j s_j, (j < k)%nat →
        ((ex, if streaming s then s else start s) :: ws) !! j = Some (ex_j, s_j) →
        ex_j = false ∧ streaming s_j = true ∧ (data_available s_j < num)%nat) ∧
     ((ret = (-1)%Z ∧ ov = None ∧ s'' = s' ∧ (ex' = true ∨ streaming s' = false)) ∨
      (ret = 0%Z ∧ ex' = false ∧ streaming s' = true ∧
       (num <= data_available s')%nat ∧
       ov = Some (m_overflow_count s') ∧ s'' = set_overflow s' 0))).
Proof.
  intros Hf. unfold fill in Hf. split.
  - intros Hn. rewrite Hn in Hf. injection Hf as <- <- <-. done.
  - intros Hn. destruct (cb s) as [c|]; [|done].
    destruct (fill_wait_stop _ _ _ _ _ Hf) as (k & ex' & s' & Hk & Hpre & Hr).
    exists k, ex', s'. split; [exact Hk|split; [exact Hpre|]].
    destruct Hr as [[-> Hr]|[-> [Hb Hr]]].
    + injection Hr as -> -> ->. left. naive_solver.
    + unfold fill_finish in Hr. destruct (streaming s') eqn:Hst.
      * injection Hr as -> -> ->. right.
        rewrite orb_false_r in Hb. apply Nat.leb_le in Hb. naive_solver.
      * injection Hr as -> -> ->. left. naive_solver.
Qed.

End Claims.

(** * Instances on concrete inputs

    The resampler as [new dsp_resampler()] builds it, run with the exact
    integer instance. *)

Ltac Z_bounds := vm_compute; repeat split; congruence.

(** ** Witnesses *)

Lemma process_zero_input_witness :
  coeffs_absorb (dsp_resampler_ctor raw_storage) ∧
  Z.of_nat (process (reset (dsp_resampler_ctor raw_storage)) (repeat czero 120) 14).2 = 13%Z.
Proof.
  assert (Hc : coeffs_absorb (dsp_resampler_ctor raw_storage))
    by (vm_compute; repeat constructor).
  refine (conj Hc _).
  destruct (process_zero_input (dsp_resampler_ctor raw_storage) 120 14 Hc) as [Ho _];
    [vm_compute; congruence|].
  rewrite Ho. reflexivity.
Defined.

Lemma stage1_decimation_witness :
  s1_coeffs_rev (dsp_resampler_ctor raw_storage) !! 0%nat = S1_COEFFS !! 60%nat ∧
  s1_index (push_stage1 (dsp_resampler_ctor raw_storage) outbuf0 czero 1).1 = 1%Z.
Proof.
  split.
  - exact (proj1 stage1_decimation raw_storage eq_refl 0%nat
             ltac:(apply Nat.ltb_lt; reflexivity)).
  - exact (proj1 (proj1 (proj2 stage1_decimation) (dsp_resampler_ctor raw_storage)
             outbuf0 czero 1 ltac:(Z_bounds))).
Defined.

Lemma s2_coeffs_poly_layout_witness :
  s2_coeffs_poly (dsp_resampler_ctor raw_storage) !! 1%nat ≫= (fun row => row !! (56 - 56)%nat)
  = Some (if (1 + 13 * 56 <? Z.to_nat S2_TAPS_TOTAL)%nat
          then nth (1 + 13 * 56) S2_COEFFS_RAW fzero else fzero).
Proof.
  apply (s2_coeffs_poly_layout raw_storage 1 56).
  - reflexivity.
  - vm_compute. repeat constructor.
  - apply Nat.ltb_lt. reflexivity.
  - apply Nat.ltb_lt. reflexivity.
Defined.

Lemma process_output_within_cap_witness :
  process (reset (dsp_resampler_ctor raw_storage)) (repeat czero 5 ++ [czero]) 1
  = process (reset (dsp_resampler_ctor raw_storage)) (repeat czero 5) 1.
Proof.
  apply (process_output_within_cap (reset (dsp_resampler_ctor raw_storage))
           (repeat czero 5) [czero] 1).
  - discriminate.
  - vm_compute. lia.
Defined.

Lemma s2_phase_state_range_witness :
  (0 <= s2_phase_state
          (process (dsp_resampler_ctor raw_storage) (repeat czero 10) 10).1.1 < 24)%Z.
Proof.
  exact (proj2 (proj2 (proj2 (s2_phase_state_range raw_storage
           (dsp_resampler_ctor raw_storage) outbuf0 czero (repeat czero 10) 10))
           ltac:(Z_bounds))).
Defined.

Lemma double_storage_invariant_witness :
  history_inv (process (dsp_resampler_ctor raw_storage) (repeat czero 10) 10).1.1.
Proof.
  apply (double_storage_invariant raw_storage (dsp_resampler_ctor raw_storage)
           outbuf0 czero (repeat czero 10) 10).
  unfold history_inv, double_stored.
  refine (conj (conj eq_refl _) (conj _ (conj (conj eq_refl _) _))).
  - intros k Hk. change (Z.to_nat S1_TAPS) with 61%nat in *.
    do 61 (destruct k as [|k]; [reflexivity|]). lia.
  - Z_bounds.
  - intros k Hk. change (Z.to_nat S2_TAPS_PER_PHASE) with 57%nat in *.
    do 57 (destruct k as [|k]; [reflexivity|]). lia.
  - Z_bounds.
Defined.

(** A streaming source with [m_overflow_count = ov] and a ring buffer of
    [len] items holding [items]. *)
Local Notation source_with ov items len :=
  (mk_iio_source (dsp_resampler_ctor raw_storage) ov%Z
     (Some (mk_circular_buffer (F:=Z) items len)) true true true).

Lemma worker_overflow_accounting_witness :
  m_overflow_count (worker_iteration (source_with 5 [] 0) (repeat (0%Z, 0%Z) 5) false) = 6%Z.
Proof.
  pose proof (worker_overflow_accounting (source_with 5 [] 0)
                (mk_circular_buffer (F:=Z) [] 0) (repeat (0%Z, 0%Z) 5) eq_refl
                ltac:(Z_bounds)) as Hw.
  remember (worker_process (source_with 5 [] 0) (repeat (0%Z, 0%Z) 5)) as wp eqn:Hwp.
  destruct wp as [[r ob] p]. destruct Hw as [_ [_ Hov]].
  rewrite Hov. vm_compute in Hwp. injection Hwp as _ _ ->. reflexivity.
Defined.

Lemma fill_result_witness :
  fill (source_with 7 [] 4) 1 false [(false, source_with 7 [czero] 4)]
    = Some (0%Z, Some 7%Z, set_overflow (source_with 7 [czero] 4) 0) ∧
  ∃ k ex' s',
    ((false, if streaming (source_with 7 [] 4) then source_with 7 [] 4
             else start (source_with 7 [] 4)) :: [(false, source_with 7 [czero] 4)]) !! k
      = Some (ex', s') ∧
    (∀ j ex_j s_j, (j < k)%nat →
       ((false, if streaming (source_with 7 [] 4) then source_with 7 [] 4
                else start (source_with 7 [] 4)) :: [(false, source_with 7 [czero] 4)]) !! j
         = Some (ex_j, s_j) →
       ex_j = false ∧ streaming s_j = true ∧ (data_available s_j < 1)%nat) ∧
    ((0%Z = (-1)%Z ∧ Some 7%Z = None ∧ set_overflow (source_with 7 [czero] 4) 0 = s' ∧
      (ex' = true ∨ streaming s' = false)) ∨
     (0%Z = 0%Z ∧ ex' = false ∧ streaming s' = true ∧
      (1 <= data_available s')%nat ∧
      Some 7%Z = Some (m_overflow_count s') ∧
      set_overflow (source_with 7 [czero] 4) 0 = set_overflow s' 0)).
Proof.
  assert (Hf : fill (source_with 7 [] 4) 1 false [(false, source_with 7 [czero] 4)]
                 = Some (0%Z, Some 7%Z, set_overflow (source_with 7 [czero] 4) 0))
    by reflexivity.
  split; [exact Hf|].
  apply (proj2 (fill_result (source_with 7 [] 4) 1 false [(false, source_with 7 [czero] 4)]
                  0 (Some 7%Z) (set_overflow (source_with 7 [czero] 4) 0) Hf)).
  discriminate.
Defined.

(** ** Counterexamples *)

(** C1: from [reset()], 5 zero samples with [out_cap = 2 >= ceil(65/120) + 1]
    give one output, where [floor((5 * 13 + 0) / 120) = 0]. *)
Lemma process_zero_input_counterexample :
  (Z.of_nat 2 >= (13 * Z.of_nat 5 + 119) / 120 + 1)%Z ∧
  Z.of_nat (process (reset (dsp_resampler_ctor raw_storage)) (repeat czero 5) 2).2 = 1%Z ∧
  ((5 * 13 + 0) / 120 = 0)%Z.
Proof.
  split; [|split]; vm_compute; congruence.
Qed.

(** C5: after 10 samples from construction [s2_phase_state] is 22, not in
    [[0, 13)]. *)
Lemma s2_phase_state_counterexample :
  s2_phase_state (process (dsp_resampler_ctor raw_storage) (repeat czero 10) 10).1.1 = 22%Z.
Proof. vm_compute. reflexivity. Qed.

(** C7: with [m_overflow_count = 2^32 - 1], an iteration producing one
    sample whose [try_lock] fails leaves [m_overflow_count = 0], not
    [2^32]: the [unsigned int] counter wraps and the sample is lost from
    the count. *)
Lemma worker_overflow_counterexample :
  m_overflow_count (source_with 4294967295 [] 4) = (UINT_MOD - 1)%Z ∧
  (worker_process (source_with 4294967295 [] 4) (repeat (0%Z, 0%Z) 5)).2 = 1%nat ∧
  m_overflow_count (worker_iteration (source_with 4294967295 [] 4)
                      (repeat (0%Z, 0%Z) 5) false) = 0%Z.
Proof.
  split; [|split]; vm_compute; reflexivity.
Qed.

(** C8: with no ring buffer, [fill] returns -1 on a streaming source with the
    exit flag clear, before reading the flag. *)
Lemma fill_counterexample :
  let s := mk_iio_source (dsp_resampler_ctor raw_storage) 0%Z None true true true in
  streaming s = true ∧ fill s 1 false [] = Some ((-1)%Z, None, s).
Proof.
  split; reflexivity.
Qed.

(** * Further properties of the code *)

Section ResamplerExtras.
Context {F : Type} `{FloatOps F}.

(** X1.  [process] with no input returns the state unchanged and no output;
    with [out_cap = 0] it still consumes the first input sample (Stage 1
    and possibly Stage 2 advance) before its [if (out_produced >= out_cap)
    break], writes nothing and returns 0. *)
Theorem process_edge_cases (r : dsp_resampler F) (x : cplx F) (rest : list (cplx F)) (cap : nat) :
  process r [] cap = (r, outbuf0, 0%nat) ∧
  process r (x :: rest) 0 = ((push_stage1 r outbuf0 x 0).1, outbuf0, 0%nat).
Proof.
  split; [done|].
  unfold process. cbn [process_loop].
  pose proof (push_stage1_full r outbuf0 x 0 ltac:(cbn; lia)) as Hf.
  destruct (push_stage1 r outbuf0 x 0) as [r' ob']. cbn in Hf. subst ob'. done.
Qed.

(** X2.  [push_stage2] on a full output buffer ([out_produced >= out_cap]):
    the sample enters the Stage-2 history, nothing is written, and the
    phase is left as it is unless it is already at least [S2_INTERP], in
    which case it is only wrapped by [S2_INTERP]. *)
Theorem push_stage2_on_full_buffer (r : dsp_resampler F) (ob : outbuf F) (x : cplx F) (cap : nat) :
  (cap <= out_produced ob)%nat →
  push_stage2 r ob x cap =
    (if (s2_phase_state r <? S2_INTERP)%Z then s2_advance r x
     else set_s2_phase_state (s2_advance r x) (s2_phase_state r - S2_INTERP), ob).
Proof. apply push_stage2_full. Qed.

(** X3.  One call of [push_stage1] writes at most one output: exactly one
    when the decimation counter completes ([s1_index = 4]), the phase is
    below [S2_INTERP] and the buffer has room, none otherwise. *)
Theorem push_stage1_output_count (r : dsp_resampler F) (ob : outbuf F) (x : cplx F) (cap : nat) :
  (0 <= s1_index r < S1_DECIMATION)%Z → (0 <= s2_phase_state r < 24)%Z →
  out_produced (push_stage1 r ob x cap).2
  = (out_produced ob +
     if (s1_index r =? 4)%Z && (s2_phase_state r <? S2_INTERP)%Z && (out_produced ob <? cap)%nat
     then 1 else 0)%nat.
Proof. intros Hi Hp. by apply produced_push_stage1. Qed.

(** X4.  From a state with [0 <= s1_index < 5] and [0 <= s2_phase_state < 24]
    (the ranges the constructor and [reset] establish and [process]
    keeps), [N] input samples give at most [(s1_index + N) / 5] outputs,
    leave [s1_index = (s1_index + N) mod 5], and give the same result for
    every [out_cap] above that bound. *)
Theorem process_output_bound (r : dsp_resampler F) (inp : list (cplx F)) (cap cap' : nat) :
  (0 <= s1_index r < S1_DECIMATION)%Z → (0 <= s2_phase_state r < 24)%Z →
  (Z.to_nat ((s1_index r + Z.of_nat (length inp)) / 5) < cap)%nat →
  (Z.to_nat ((s1_index r + Z.of_nat (length inp)) / 5) < cap')%nat →
  process r inp cap = process r inp cap' ∧
  s1_index (process r inp cap).1.1 = ((s1_index r + Z.of_nat (length inp)) mod 5)%Z ∧
  ((process r inp cap).2 <= Z.to_nat ((s1_index r + Z.of_nat (length inp)) / 5))%nat.
Proof.
  intros Hi Hp Hc Hc'.
  destruct (process_loop_fits r outbuf0 inp cap cap' Hi Hp Hc Hc') as (Heq & Hid & Hle).
  rewrite !process_unfold, Heq. cbn [fst snd]. rewrite <- Heq. auto.
Qed.

(** X5.  Splitting the input: when the first part [a] does not fill the
    buffer, [process r (a ++ b) cap] is [process r a cap] followed by
    [process] on [b] from the state it leaves, with the room left
    [cap - na]; the outputs of the second call follow those of the first. *)
Theorem process_split_input (r : dsp_resampler F) (a b : list (cplx F)) (cap : nat) :
  ((process r a cap).2 < cap)%nat →
  process r (a ++ b) cap =
    let '(ra, oba, na) := process r a cap in
    let '(rb, obb, nb) := process ra b (cap - na) in
    (rb, join oba obb, (na + nb)%nat).
Proof. apply process_app_split. Qed.

(** X6.  The output count and the control state after [reset] depend only
    on the number [N] of samples, not on their values: any [N] samples
    with [out_cap >= ceil(13 N / 120) + 1] give [ceil(13 floor(N/5) / 24)]
    outputs, [s1_index = N mod 5] and the phase [24 o - 13 floor(N/5)]. *)
Theorem process_count_any_input (g : dsp_resampler F) (inp : list (cplx F)) (cap : nat) :
  (Z.of_nat cap >= (13 * Z.of_nat (length inp) + 119) / 120 + 1)%Z →
  Z.of_nat (process (reset g) inp cap).2
    = ((13 * (Z.of_nat (length inp) / 5) + 23) / 24)%Z ∧
  s1_index (process (reset g) inp cap).1.1 = (Z.of_nat (length inp) mod 5)%Z ∧
  s2_phase_state (process (reset g) inp cap).1.1
    = (24 * ((13 * (Z.of_nat (length inp) / 5) + 23) / 24) - 13 * (Z.of_nat (length inp) / 5))%Z.
Proof.
  intros Hcap. set (N := length inp).
  set (z := dsp_resampler_ctor raw_storage).
  assert (Hz : coeffs_absorb (reset z)) by (vm_compute; repeat constructor).
  assert (Hinv := zero_run_loop N 0 (reset z) outbuf0 cap ltac:(lia)
                    (zero_run_reset (reset z) Hz)).
  rewrite Z.add_0_l in Hinv.
  specialize (Hinv ltac:(Z.to_euclidean_division_equations; lia)).
  destruct Hinv as (_ & _ & _ & Hi & Ho & Hp & _).
  assert (Hc : same_ctrl (reset g) (reset z)) by (repeat split).
  destruct (process_loop_sim (reset g) (reset z) outbuf0 outbuf0 inp (repeat czero N) cap
              Hc eq_refl ltac:(by rewrite repeat_length)) as [(H1 & _ & _ & H4) H5].
  rewrite process_unfold. cbn [fst snd].
  rewrite H5, H1, H4. auto.
Qed.

(** X7.  The coefficient tables are written only by the constructor: after
    any sequence of [process] calls on a constructed resampler, [reset]
    (which [tune] calls) gives back exactly the freshly constructed state. *)
Theorem reset_after_processing (g : dsp_resampler F) (calls : list (list (cplx F) * nat)) :
  reset (fold_left (fun r c => (process r c.1 c.2).1.1) calls (dsp_resampler_ctor g))
  = dsp_resampler_ctor g.
Proof.
  assert (Hgen : ∀ r, s1_coeffs_rev r = s1_coeffs_rev (dsp_resampler_ctor g) →
            s2_coeffs_poly r = s2_coeffs_poly (dsp_resampler_ctor g) →
            reset (fold_left (fun r c => (process r c.1 c.2).1.1) calls r)
            = dsp_resampler_ctor g).
  { induction calls as [|[inp cap] calls IH]; intros r E1 E2; cbn [fold_left].
    - unfold reset at 1. rewrite E1, E2. reflexivity.
    - apply IH; rewrite process_unfold; cbn [fst snd];
        destruct (coeffs_process_loop_eq r outbuf0 inp cap) as [C1 C2]; congruence. }
  by apply Hgen.
Qed.

End ResamplerExtras.

Section SourceExtras.
Context {F : Type} `{FloatOps F}.

(** X8.  [worker_thread] calls [process] with [out_cap = BATCH_SIZE], but
    from a state with [0 <= s1_index < 5] and [0 <= s2_phase_state < 24] one
    batch of at most 32768 samples gives at most 6554 outputs, so the
    [break] on a full [out_buf] never happens: the iteration's [process]
    call behaves as with any capacity above 6554. *)
Theorem worker_process_room (s : iio_source F) (chunk : list (Z * Z)) (cap' : nat) :
  (0 <= s1_index (m_resampler s) < S1_DECIMATION)%Z →
  (0 <= s2_phase_state (m_resampler s) < 24)%Z →
  (6554 < Z.of_nat cap')%Z →
  (Z.of_nat (worker_process s chunk).2 <= 6554)%Z ∧
  worker_process s chunk = process (m_resampler s) (convert_batch chunk 0) cap'.
Proof.
  intros Hi Hp Hc. pose proof (worker_steps_bound s chunk Hi) as Hm.
  destruct (worker_process_fits s chunk cap' Hi Hp ltac:(lia)) as [Heq Hle].
  split; [lia|exact Heq].
Qed.

(** X9.  While [streaming] stays set and every [iio_buffer_refill]
    succeeds, the passes of [worker_thread] run the resampler as one
    [process] call on all the converted batches in order, whatever the
    [try_lock] outcomes: the resampler state after the passes is that of a
    single call with any [out_cap] above [(s1_index + total) / 5]. *)
Theorem worker_thread_stream (s : iio_source F) (passes : list (list (Z * Z) * bool)) (K : nat) :
  (0 <= s1_index (m_resampler s) < S1_DECIMATION)%Z →
  (0 <= s2_phase_state (m_resampler s) < 24)%Z →
  (Z.to_nat ((s1_index (m_resampler s)
              + Z.of_nat (length (concat (map (fun p => convert_batch (F:=F) p.1 0) passes)))) / 5)
     < K)%nat →
  m_resampler (worker_thread s (map (fun p => (true, Some p.1, p.2)) passes))
  = (process (m_resampler s) (concat (map (fun p => convert_batch p.1 0) passes)) K).1.1.
Proof.
  revert s K; induction passes as [|[c l] passes IH]; intros s K Hi Hp HK.
  - by rewrite process_unfold.
  - cbn [map concat worker_thread fst snd] in *.
    set (r := m_resampler s) in *.
    set (a := convert_batch (F:=F) c 0) in *.
    set (rest := concat (map (fun p => convert_batch (F:=F) p.1 0) passes)) in *.
    assert (Hidx : index_ok r) by exact Hi.
    pose proof (worker_steps_bound s c Hidx) as Hm. fold r a in Hm.
    rewrite length_app, Nat2Z.inj_add in HK.
    assert (Hsplit : ((s1_index r + (Z.of_nat (length a) + Z.of_nat (length rest))) / 5
       = (s1_index r + Z.of_nat (length a)) / 5
         + ((s1_index r + Z.of_nat (length a)) mod 5 + Z.of_nat (length rest)) / 5)%Z).
    { pose proof (Z.div_mod (s1_index r + Z.of_nat (length a)) 5 ltac:(lia)) as Hu.
      replace (s1_index r + (Z.of_nat (length a) + Z.of_nat (length rest)))%Z
        with ((s1_index r + Z.of_nat (length a)) / 5 * 5
              + ((s1_index r + Z.of_nat (length a)) mod 5 + Z.of_nat (length rest)))%Z by lia.
      apply Z.div_add_l. lia. }
    assert (Hq1 : (0 <= (s1_index r + Z.of_nat (length a)) / 5)%Z)
      by (apply Z.div_pos; unfold index_ok, S1_DECIMATION in Hidx; lia).
    assert (Hq2 : (0 <= ((s1_index r + Z.of_nat (length a)) mod 5 + Z.of_nat (length rest)) / 5)%Z)
      by (apply Z.div_pos; [pose proof (Z.mod_pos_bound (s1_index r + Z.of_nat (length a)) 5)|]; lia).
    rewrite Hsplit, Z2Nat.inj_add in HK by assumption.
    destruct (worker_process_fits s c K Hidx Hp) as [Hwp Hle]; [fold r a; clear -HK; lia|].
    destruct (process_fits r a K K Hidx Hp ltac:(lia) ltac:(lia)) as (_ & Hid & _).
    fold r a in Hwp, Hle. rewrite Hwp in Hle.
    rewrite (IH (worker_iteration s c l) (K - (process r a K).2)%nat).
    + rewrite worker_iteration_resampler, Hwp.
      rewrite (process_app_split r a rest K) by lia.
      destruct (process r a K) as [[ra oba] na]. cbn [fst snd].
      destruct (process ra rest (K - na)) as [[rb obb] nb]. reflexivity.
    + rewrite worker_iteration_resampler, Hwp. rewrite process_unfold.
      apply index_ok_process_loop, Hidx.
    + rewrite worker_iteration_resampler, Hwp. rewrite process_unfold.
      apply phase_ok_process_loop, Hp.
    + rewrite worker_iteration_resampler, Hwp, Hid. fold rest. lia.
Qed.

End SourceExtras.

Section UtilExtras.

(** X10.  The FFT shift of [draw_ascii_fft], [idx = (i + len/2) % len] for
    [i = 0 .. len-1], visits the FFT bins [len/2 .. len-1] and then
    [0 .. len/2 - 1]: a rotation, so each bin is read exactly once and the
    zero frequency lands in the middle of [mag_db]. *)
Theorem fft_shift_permutation (len : Z) :
  (0 < len)%Z → (len + Z.quot len 2 < 2 ^ 31)%Z →
  map (fft_shift_index len) (zrange 0 len) = zrange (Z.quot len 2) len ++ zrange 0 (Z.quot len 2) ∧
  Permutation (map (fft_shift_index len) (zrange 0 len)) (zrange 0 len).
Proof.
  intros Hl _.
  assert (E : len = Z.of_nat (Z.to_nat len)) by lia.
  set (n := Z.to_nat len) in E. clearbody n. subst len.
  assert (Eq : Z.quot (Z.of_nat n) 2 = Z.of_nat (n / 2)).
  { rewrite Z.quot_div_nonneg by lia. by rewrite Nat2Z.inj_div. }
  rewrite Eq. change 0%Z with (Z.of_nat 0). rewrite !zrange_nat, !Nat.sub_0_r.
  rewrite fft_shift_rotation_nat by lia.
  split; [done|].
  etrans; [apply Permutation_app_comm|]. rewrite <- map_app.
  assert (Hs : seq 0 n = seq 0 (n / 2) ++ seq (n / 2) (n - n / 2)).
  { rewrite <- (Nat.add_0_l (n / 2)) at 2. rewrite <- seq_app. f_equal.
    assert (n / 2 <= n)%nat by (apply Nat.Div0.div_le_upper_bound; lia). lia. }
  by rewrite Hs.
Qed.

(** X11.  The max-hold downsampling of [draw_ascii_fft]: the ranges
    [start_idx <= j < end_idx] of the columns [w = 0 .. plot_width-1]
    follow each other and together are exactly [0 .. len-1], so every bin
    of [mag_db] goes to exactly one column, in order, and the [j < len]
    guard never fails. *)
Theorem plot_bins_cover (width len : Z) :
  (0 <= len)%Z → (plot_width width * len < 2 ^ 31)%Z →
  concat (map (bin_range len (plot_width width)) (columns (plot_width width))) = zrange 0 len.
Proof.
  intros Hl _.
  assert (Hp : (10 <= plot_width width)%Z)
    by (unfold plot_width; destruct (Z.ltb_spec (width - 20) 10); lia).
  unfold columns. rewrite bins_prefix by lia. rewrite Z2Nat.id by lia.
  rewrite (Z.mul_comm (plot_width width) len), Z.quot_mul by lia.
  unfold zrange. by rewrite Z.sub_0_r.
Qed.

End UtilExtras.

(** ** Witnesses of the further properties *)

Local Notation ctor0 := (dsp_resampler_ctor raw_storage).

Lemma push_stage2_on_full_buffer_witness :
  (0 <= out_produced (outbuf0 (F:=Z)))%nat ∧
  push_stage2 ctor0 outbuf0 czero 0 =
    (if (s2_phase_state ctor0 <? S2_INTERP)%Z then s2_advance ctor0 czero
     else set_s2_phase_state (s2_advance ctor0 czero) (s2_phase_state ctor0 - S2_INTERP), outbuf0).
Proof.
  assert (Hc : (0 <= out_produced (outbuf0 (F:=Z)))%nat) by (cbn; lia).
  exact (conj Hc (push_stage2_on_full_buffer ctor0 outbuf0 czero 0 Hc)).
Defined.

Lemma push_stage1_output_count_witness :
  (0 <= s1_index ctor0 < S1_DECIMATION)%Z ∧ (0 <= s2_phase_state ctor0 < 24)%Z ∧
  out_produced (push_stage1 ctor0 outbuf0 czero 1).2
  = (out_produced (outbuf0 (F:=Z)) +
     if (s1_index ctor0 =? 4)%Z && (s2_phase_state ctor0 <? S2_INTERP)%Z
        && (out_produced (outbuf0 (F:=Z)) <? 1)%nat
     then 1 else 0)%nat.
Proof.
  assert (H1 : (0 <= s1_index ctor0 < S1_DECIMATION)%Z) by Z_bounds.
  assert (H2 : (0 <= s2_phase_state ctor0 < 24)%Z) by Z_bounds.
  exact (conj H1 (conj H2 (push_stage1_output_count ctor0 outbuf0 czero 1 H1 H2))).
Defined.

Lemma process_output_bound_witness :
  (0 <= s1_index ctor0 < S1_DECIMATION)%Z ∧ (0 <= s2_phase_state ctor0 < 24)%Z ∧
  (Z.to_nat ((s1_index ctor0 + Z.of_nat (length (repeat czero 7))) / 5) < 2)%nat ∧
  process ctor0 (repeat czero 7) 2 = process ctor0 (repeat czero 7) 3.
Proof.
  assert (H1 : (0 <= s1_index ctor0 < S1_DECIMATION)%Z) by Z_bounds.
  assert (H2 : (0 <= s2_phase_state ctor0 < 24)%Z) by Z_bounds.
  assert (H3 : (Z.to_nat ((s1_index ctor0 + Z.of_nat (length (repeat (czero (F:=Z)) 7))) / 5) < 2)%nat)
    by (vm_compute; lia).
  assert (H4 : (Z.to_nat ((s1_index ctor0 + Z.of_nat (length (repeat (czero (F:=Z)) 7))) / 5) < 3)%nat)
    by (vm_compute; lia).
  exact (conj H1 (conj H2 (conj H3 (proj1 (process_output_bound ctor0 (repeat czero 7) 2 3
                                             H1 H2 H3 H4))))).
Defined.

Lemma process_split_input_witness :
  ((process ctor0 (repeat czero 5) 3).2 < 3)%nat ∧
  process ctor0 (repeat czero 5 ++ [czero]) 3 =
    let '(ra, oba, na) := process ctor0 (repeat czero 5) 3 in
    let '(rb, obb, nb) := process ra [czero] (3 - na) in
    (rb, join oba obb, (na + nb)%nat).
Proof.
  assert (Hc : ((process ctor0 (repeat czero 5) 3).2 < 3)%nat) by (vm_compute; lia).
  exact (conj Hc (process_split_input ctor0 (repeat czero 5) [czero] 3 Hc)).
Defined.

Lemma process_count_any_input_witness :
  (Z.of_nat 3 >= (13 * Z.of_nat (length (repeat (1%Z, 2%Z) 10)) + 119) / 120 + 1)%Z ∧
  Z.of_nat (process (reset ctor0) (repeat (1%Z, 2%Z) 10) 3).2 = 2%Z.
Proof.
  assert (Hc : (Z.of_nat 3 >= (13 * Z.of_nat (length (repeat (1%Z, 2%Z) 10)) + 119) / 120 + 1)%Z)
    by (vm_compute; congruence).
  split; [exact Hc|].
  rewrite (proj1 (process_count_any_input ctor0 (repeat (1%Z, 2%Z) 10) 3 Hc)).
  reflexivity.
Defined.

Lemma worker_process_room_witness :
  (0 <= s1_index (m_resampler (source_with 0 [] 4)) < S1_DECIMATION)%Z ∧
  (0 <= s2_phase_state (m_resampler (source_with 0 [] 4)) < 24)%Z ∧
  (6554 < Z.of_nat (Z.to_nat 6555))%Z ∧
  worker_process (source_with 0 [] 4) (repeat (1%Z, 1%Z) 3)
  = process (m_resampler (source_with 0 [] 4)) (convert_batch (repeat (1%Z, 1%Z) 3) 0)
      (Z.to_nat 6555).
Proof.
  assert (H1 : (0 <= s1_index (m_resampler (source_with 0 [] 4)) < S1_DECIMATION)%Z) by Z_bounds.
  assert (H2 : (0 <= s2_phase_state (m_resampler (source_with 0 [] 4)) < 24)%Z) by Z_bounds.
  assert (H3 : (6554 < Z.of_nat (Z.to_nat 6555))%Z) by (vm_compute; reflexivity).
  exact (conj H1 (conj H2 (conj H3
           (proj2 (worker_process_room (source_with 0 [] 4) (repeat (1%Z, 1%Z) 3)
                     (Z.to_nat 6555) H1 H2 H3))))).
Defined.

Lemma worker_thread_stream_witness :
  (0 <= s1_index (m_resampler (source_with 0 [] 4)) < S1_DECIMATION)%Z ∧
  (0 <= s2_phase_state (m_resampler (source_with 0 [] 4)) < 24)%Z ∧
  (Z.to_nat ((s1_index (m_resampler (source_with 0 [] 4))
              + Z.of_nat (length (concat (map (fun p => convert_batch (F:=Z) p.1 0)
                    [(repeat (1%Z, 1%Z) 3, true); (repeat (2%Z, 2%Z) 4, false)])))) / 5) < 2)%nat ∧
  m_resampler (worker_thread (source_with 0 [] 4)
    (map (fun p => (true, Some p.1, p.2)) [(repeat (1%Z, 1%Z) 3, true); (repeat (2%Z, 2%Z) 4, false)]))
  = (process (m_resampler (source_with 0 [] 4))
       (concat (map (fun p => convert_batch p.1 0)
          [(repeat (1%Z, 1%Z) 3, true); (repeat (2%Z, 2%Z) 4, false)])) 2).1.1.
Proof.
  assert (H1 : (0 <= s1_index (m_resampler (source_with 0 [] 4)) < S1_DECIMATION)%Z) by Z_bounds.
  assert (H2 : (0 <= s2_phase_state (m_resampler (source_with 0 [] 4)) < 24)%Z) by Z_bounds.
  assert (H3 : (Z.to_nat ((s1_index (m_resampler (source_with 0 [] 4))
              + Z.of_nat (length (concat (map (fun p => convert_batch (F:=Z) p.1 0)
                    [(repeat (1%Z, 1%Z) 3, true); (repeat (2%Z, 2%Z) 4, false)])))) / 5) < 2)%nat)
    by (vm_compute; lia).
  exact (conj H1 (conj H2 (conj H3 (worker_thread_stream (source_with 0 [] 4)
           [(repeat (1%Z, 1%Z) 3, true); (repeat (2%Z, 2%Z) 4, false)] 2 H1 H2 H3)))).
Defined.

Lemma fft_shift_permutation_witness :
  (0 < 8)%Z ∧ (8 + Z.quot 8 2 < 2 ^ 31)%Z ∧
  map (fft_shift_index 8) (zrange 0 8) = zrange (Z.quot 8 2) 8 ++ zrange 0 (Z.quot 8 2).
Proof.
  assert (H1 : (0 < 8)%Z) by lia.
  assert (H2 : (8 + Z.quot 8 2 < 2 ^ 31)%Z) by (vm_compute; reflexivity).
  exact (conj H1 (conj H2 (proj1 (fft_shift_permutation 8 H1 H2)))).
Defined.

Lemma plot_bins_cover_witness :
  (0 <= 30)%Z ∧ (plot_width 40 * 30 < 2 ^ 31)%Z ∧
  concat (map (bin_range 30 (plot_width 40)) (columns (plot_width 40))) = zrange 0 30.
Proof.
  assert (H1 : (0 <= 30)%Z) by lia.
  assert (H2 : (plot_width 40 * 30 < 2 ^ 31)%Z) by (vm_compute; reflexivity).
  exact (conj H1 (conj H2 (plot_bins_cover 40 30 H1 H2))).
Defined.
